(** * Shallow embedding of the nitc-chatbot crawler and relevance scorer

    Sources: [src/chatbot.py] (keyword extraction, scoring, ranking),
    [src/scraper.py] (random-discovery crawler, checkpointing) and
    [src/removeTitles.py] (corpus curation).

    Modelling conventions.
    - Python [str] values are modelled as [string] over ASCII; [str.lower],
      [str.isspace] and the regex class [\w] are their ASCII restrictions.
    - Python floats (weights and scores) are rationals [Q]. The scorer is
      given twice: [calculate_match_score] in exact arithmetic, and
      [calculate_match_score_fl], which rounds every float operation to the
      nearest IEEE 754 double as CPython does; properties that rounding can
      break are stated on the latter.
    - JSON values and Python dicts loaded from / dumped to JSON are [json]
      and association lists [dict]. *)

From Stdlib Require Import List Bool Arith ZArith QArith Qpower Qround Lia Lqa.
From Stdlib Require Import String Ascii Sorted Permutation.
Import ListNotations.

Local Open Scope string_scope.

(* ------------------------------------------------------------------ *)
(** ** Python string primitives (ASCII) *)

(** [c.isspace()] for ASCII: \t \n \v \f \r, \x1c..\x1f and space. *)
Definition py_isspace (c : ascii) : bool :=
  let n := nat_of_ascii c in
  (((9 <=? n) && (n <=? 13)) || ((28 <=? n) && (n <=? 32)))%nat.

(** Membership in the regex class [\w]: letters, digits, underscore. *)
Definition py_isword (c : ascii) : bool :=
  let n := nat_of_ascii c in
  (((48 <=? n) && (n <=? 57)) || ((65 <=? n) && (n <=? 90))
   || ((97 <=? n) && (n <=? 122)) || (n =? 95))%nat.

Definition lower_char (c : ascii) : ascii :=
  let n := nat_of_ascii c in
  if ((65 <=? n) && (n <=? 90))%nat then ascii_of_nat (n + 32)%nat else c.

(** [s.lower()] *)
Fixpoint py_lower (s : string) : string :=
  match s with
  | EmptyString => EmptyString
  | String c s' => String (lower_char c) (py_lower s')
  end.

Fixpoint startswith (p s : string) : bool :=
  match p, s with
  | EmptyString, _ => true
  | String a p', String b s' => Ascii.eqb a b && startswith p' s'
  | String _ _, EmptyString => false
  end.

Fixpoint str_drop (n : nat) (s : string) : string :=
  match n, s with
  | O, _ => s
  | S n', String _ s' => str_drop n' s'
  | S _, EmptyString => EmptyString
  end.

(** [k in s] *)
Fixpoint py_in (k s : string) : bool :=
  startswith k s ||
  match s with
  | EmptyString => false
  | String _ s' => py_in k s'
  end.

(** [s.count(k)] for non-empty [k]: non-overlapping occurrences, scanned
    left to right; each step consumes at least one character. *)
Fixpoint count_go (fuel : nat) (k s : string) : nat :=
  match fuel with
  | O => O
  | S f =>
      if startswith k s then S (count_go f k (str_drop (length k) s))
      else match s with
           | EmptyString => O
           | String _ s' => count_go f k s'
           end
  end.

(** [s.count(k)]; [s.count('')] is [len(s) + 1]. *)
Definition py_count (k s : string) : nat :=
  if String.eqb k "" then S (length s) else count_go (S (length s)) k s.

Definition str_head (s : string) : option ascii :=
  match s with EmptyString => None | String c _ => Some c end.

Fixpoint str_last (prev : option ascii) (s : string) : option ascii :=
  match s with EmptyString => prev | String c s' => str_last (Some c) s' end.

(** A [\b] assertion between the character before and the one after. *)
Definition boundary (before after : option ascii) : bool :=
  let w o := match o with Some c => py_isword c | None => false end in
  xorb (w before) (w after).

(** [re.search(r'\b' + re.escape(k) + r'\b', s) is not None]: some position
    of [s] starts a literal occurrence of [k] with a word boundary on both
    sides.  [prev] is the character before the current position. *)
Fixpoint wb_go (prev : option ascii) (k s : string) : bool :=
  (boundary prev (str_head s) && startswith k s
   && boundary (str_last prev k) (str_head (str_drop (length k) s)))
  || match s with
     | EmptyString => false
     | String c s' => wb_go (Some c) k s'
     end.

Definition wb_search (k s : string) : bool := wb_go None k s.

(** [s.split()]: maximal runs of non-whitespace. *)
Fixpoint split_go (acc : string) (s : string) : list string :=
  match s with
  | EmptyString => if String.eqb acc "" then [] else [acc]
  | String c s' =>
      if py_isspace c then
        (if String.eqb acc "" then split_go "" s' else acc :: split_go "" s')
      else split_go (acc ++ String c "") s'
  end.

Definition py_split (s : string) : list string := split_go "" s.

(** [sep.join(l)] *)
Fixpoint py_join (sep : string) (l : list string) : string :=
  match l with
  | [] => ""
  | [x] => x
  | x :: l' => x ++ sep ++ py_join sep l'
  end.

(** [s.split(sep)] for a one-character separator. *)
Fixpoint split_char (sep : ascii) (s : string) : list string :=
  match s with
  | EmptyString => [""]
  | String c s' =>
      let r := split_char sep s' in
      if Ascii.eqb c sep then "" :: r
      else match r with
           | [] => [String c ""]
           | h :: t => String c h :: t
           end
  end.

(** [s.split(sep, 1)] when it yields two parts. *)
Fixpoint split_first (sep : ascii) (s : string) : option (string * string) :=
  match s with
  | EmptyString => None
  | String c s' =>
      if Ascii.eqb c sep then Some ("", s')
      else match split_first sep s' with
           | Some (a, b) => Some (String c a, b)
           | None => None
           end
  end.

Fixpoint py_lstrip (s : string) : string :=
  match s with
  | EmptyString => EmptyString
  | String c s' => if py_isspace c then py_lstrip s' else s
  end.

Fixpoint py_rstrip (s : string) : string :=
  match s with
  | EmptyString => EmptyString
  | String c s' =>
      let r := py_rstrip s' in
      if py_isspace c && String.eqb r "" then "" else String c r
  end.

(** [s.strip()] *)
Definition py_strip (s : string) : string := py_rstrip (py_lstrip s).

(* ------------------------------------------------------------------ *)
(** ** JSON values and dicts *)

Set Warnings "-register-all".

Inductive json : Type :=
| JNull
| JBool (b : bool)
| JNum (q : Q)
| JStr (s : string)
| JArr (l : list json)
| JObj (l : list (string * json)).

Definition dict := list (string * json).

(** [d.get(k)] *)
Fixpoint dict_get (d : dict) (k : string) : option json :=
  match d with
  | [] => None
  | (k', v) :: d' => if String.eqb k k' then Some v else dict_get d' k
  end.

(* ------------------------------------------------------------------ *)
(** ** chatbot.py: scoring *)

(** An element of the weighted keyword list: [{'keyword': k, 'weight': w}]. *)
Record wkw : Type := mkWkw { keyword : string; weight : Q }.

Definition Qltb (x y : Q) : bool := negb (Qle_bool y x).

(** [page.get(k, '').lower()]; [None] when the value is not a [str]
    (the [.lower()] call raises). *)
Definition get_lower (page : dict) (k : string) : option string :=
  match dict_get page k with
  | None => Some ""
  | Some (JStr s) => Some (py_lower s)
  | Some _ => None
  end.

Fixpoint strs_of (l : list json) : option (list string) :=
  match l with
  | [] => Some []
  | JStr s :: l' =>
      match strs_of l' with Some r => Some (s :: r) | None => None end
  | _ :: _ => None
  end.

Fixpoint chars_of (s : string) : list string :=
  match s with
  | EmptyString => []
  | String c s' => String c "" :: chars_of s'
  end.

(** [' '.join(page.get('categories', [])).lower()]: [join] iterates its
    argument (characters of a string, keys of a dict) and raises on
    non-string items or non-iterables. *)
Definition categories_str (page : dict) : option string :=
  let items :=
    match dict_get page "categories" with
    | None => Some []
    | Some (JArr l) => strs_of l
    | Some (JStr s) => Some (chars_of s)
    | Some (JObj l) => Some (map fst l)
    | Some _ => None
    end in
  match items with
  | Some l => Some (py_lower (py_join " " l))
  | None => None
  end.

(** One iteration of the [for kw_data in weighted_keywords] loop of
    [calculate_match_score], threading [score]. *)
Definition score_step (title content categories : string) (score : Q)
    (kw_data : wkw) : Q :=
  let keyword := keyword kw_data in
  let weight := weight kw_data in
  let score :=
    if String.eqb keyword title then score + 50 * weight
    else if py_in keyword title then score + 20 * weight
    else score in
  let score := if py_in keyword categories then score + 15 * weight else score in
  let content_matches := inject_Z (Z.of_nat (py_count keyword content)) in
  let score := score + content_matches * 2 * weight in
  let score := if wb_search keyword title then score + 25 * weight else score in
  let content_start := py_join " " (firstn 200 (py_split content)) in
  let score :=
    if wb_search keyword content_start then score + 5 * weight else score in
  fold_left
    (fun score word =>
       if py_in keyword word && (3 <? length keyword)%nat
       then score + 3 * weight else score)
    (py_split title) score.

Definition score_fields (title content categories : string)
    (weighted_keywords : list wkw) : Q :=
  fold_left (score_step title content categories) weighted_keywords 0.

(** [WikiChatbot.calculate_match_score]; [None] when reading a field raises. *)
Definition calculate_match_score (page : dict) (weighted_keywords : list wkw)
    : option Q :=
  match get_lower page "title", get_lower page "content", categories_str page with
  | Some title, Some content, Some categories =>
      Some (score_fields title content categories weighted_keywords)
  | _, _, _ => None
  end.

(* ------------------------------------------------------------------ *)
(** ** Python float arithmetic (IEEE 754 binary64)

    A finite double is a rational [m * 2 ^ e] with [|m| < 2 ^ 53] and
    [e >= -1074]. CPython computes [x + y], [x * y] and [float(n)] by
    rounding the exact result to the nearest double, ties to even. The
    exponent is not bounded above here: results of magnitude [2 ^ 1024] or
    more, which Python turns into [inf], are outside this model. *)

Definition pow2 (e : Z) : Q := Qpower 2 e.

(** [floor(log2 q)] for [q > 0]: the difference of the [log2] of the
    numerator and of the denominator is the floor or one above it. *)
Definition flog2 (q : Q) : Z :=
  let k := (Z.log2 (Qnum q) - Z.log2 (Zpos (Qden q)))%Z in
  if Qle_bool (pow2 k) q then k else (k - 1)%Z.

(** Rounding to an integer, ties to even. *)
Definition round_half_even (x : Q) : Z :=
  let f := Qfloor x in
  match Qcompare (x - inject_Z f) (1 # 2) with
  | Lt => f
  | Gt => (f + 1)%Z
  | Eq => if Z.even f then f else (f + 1)%Z
  end.

(** The double nearest to [q > 0]: 53 significant bits at the exponent of
    [q], or the subnormal spacing [2 ^ -1074] below [2 ^ -1022]. *)
Definition round_pos (q : Q) : Q :=
  let e := Z.max (-1074) (flog2 q - 52) in
  Qred (inject_Z (round_half_even (q / pow2 e)) * pow2 e).

Definition round_double (q : Q) : Q :=
  match Qcompare q 0 with
  | Gt => round_pos q
  | Lt => - round_pos (- q)
  | Eq => 0
  end.

Definition fl_add (x y : Q) : Q := round_double (x + y).

Definition fl_mul (x y : Q) : Q := round_double (x * y).

(** [float(n)] for a Python [int], as [int * float] converts it. *)
Definition fl_of_nat (n : nat) : Q := round_double (inject_Z (Z.of_nat n)).

(** [score_step] with float arithmetic: [score += c * weight] is
    [fl_add score (fl_mul c weight)], and [content_matches * 2.0 * weight]
    is [(float(content_matches) * 2.0) * weight]. *)
Definition score_step_fl (title content categories : string) (score : Q)
    (kw_data : wkw) : Q :=
  let keyword := keyword kw_data in
  let weight := weight kw_data in
  let score :=
    if String.eqb keyword title then fl_add score (fl_mul 50 weight)
    else if py_in keyword title then fl_add score (fl_mul 20 weight)
    else score in
  let score :=
    if py_in keyword categories then fl_add score (fl_mul 15 weight) else score in
  let content_matches := py_count keyword content in
  let score :=
    fl_add score (fl_mul (fl_mul (fl_of_nat content_matches) 2) weight) in
  let score :=
    if wb_search keyword title then fl_add score (fl_mul 25 weight) else score in
  let content_start := py_join " " (firstn 200 (py_split content)) in
  let score :=
    if wb_search keyword content_start then fl_add score (fl_mul 5 weight)
    else score in
  fold_left
    (fun score word =>
       if py_in keyword word && (3 <? length keyword)%nat
       then fl_add score (fl_mul 3 weight) else score)
    (py_split title) score.

(** [WikiChatbot.calculate_match_score] with float arithmetic. *)
Definition calculate_match_score_fl (page : dict) (weighted_keywords : list wkw)
    : option Q :=
  match get_lower page "title", get_lower page "content", categories_str page with
  | Some title, Some content, Some categories =>
      Some (fold_left (score_step_fl title content categories) weighted_keywords 0)
  | _, _, _ => None
  end.

(* ------------------------------------------------------------------ *)
(** ** Python's [list.sort(key=..., reverse=True)]

    A stable sort into descending key order: elements with equal keys keep
    their original relative order ([reverse=True] preserves stability).
    Insertion sort from the right: an element goes before every later
    element whose key is not greater than its own. *)

Section StableSort.
Context {A : Type} (key : A -> Q).

Fixpoint insert_desc (x : A) (l : list A) : list A :=
  match l with
  | [] => [x]
  | y :: l' => if Qle_bool (key y) (key x) then x :: l else y :: insert_desc x l'
  end.

Fixpoint sort_desc (l : list A) : list A :=
  match l with
  | [] => []
  | x :: l' => insert_desc x (sort_desc l')
  end.
End StableSort.

(* ------------------------------------------------------------------ *)
(** ** chatbot.py: ranking *)

(** The [for page in self.wiki_data] loop: pages with [score > 0] are kept
    with their score; [None] when a score computation raises. *)
Fixpoint score_pages (weighted_keywords : list wkw) (pages : list dict)
    : option (list (dict * Q)) :=
  match pages with
  | [] => Some []
  | page :: pages' =>
      match calculate_match_score page weighted_keywords with
      | None => None
      | Some score =>
          match score_pages weighted_keywords pages' with
          | None => None
          | Some r => Some (if Qltb 0 score then (page, score) :: r else r)
          end
      end
  end.

(** [l[:n]] *)
Definition py_slice_upto {A : Type} (l : list A) (n : Z) : list A :=
  if (0 <=? n)%Z then firstn (Z.to_nat n) l
  else firstn (List.length l - Z.to_nat (- n)) l.

(** The body of [get_best_matching_pages] once the weighted keywords are
    known: score, keep [score > 0], sort by score descending, slice. *)
Definition rank_pages (wiki_data : list dict) (weighted_keywords : list wkw)
    (top_n : Z) : option (list dict) :=
  match score_pages weighted_keywords wiki_data with
  | None => None
  | Some page_scores =>
      Some (map fst (py_slice_upto (sort_desc snd page_scores) top_n))
  end.

(* ------------------------------------------------------------------ *)
(** ** chatbot.py: keyword extraction

    [py_float] is Python's [float()] on a string: [Some q] for a finite
    number, [None] when it raises [ValueError] or yields [inf]/[nan]
    (both fail [1 <= weight <= 10] and are skipped the same way). *)

(** One line of the [for line in ai_response.split('\n')] loop of
    [generate_keywords]: [Some] when a keyword is appended. *)
Definition parse_line (py_float : string -> option Q) (line : string)
    : option wkw :=
  let line := py_strip line in
  if py_in ":" line && negb (String.eqb line "") then
    match split_first ":"%char line with
    | Some (keyword, weight) =>
        let keyword := py_lower (py_strip keyword) in
        match py_float (py_strip weight) with
        | None => None
        | Some weight =>
            if (1 <? length keyword)%nat && Qle_bool 1 weight && Qle_bool weight 10
            then Some (mkWkw keyword weight) else None
        end
    | None => None
    end
  else None.

Definition newline : ascii := ascii_of_nat 10.

(** [WikiChatbot.generate_keywords] given the text [ai_response] returned by
    the external capability [textOne]. *)
Definition generate_keywords (py_float : string -> option Q)
    (user_question ai_response : string) : list wkw :=
  let weighted_keywords :=
    fold_left
      (fun acc line =>
         match parse_line py_float line with
         | Some kw => (acc ++ [kw])%list
         | None => acc
         end)
      (split_char newline ai_response) [] in
  let weighted_keywords :=
    match weighted_keywords with
    | [] =>
        map (fun word => mkWkw word 10)
            (filter (fun word => (2 <? length word)%nat)
                    (py_split (py_lower user_question)))
    | _ => weighted_keywords
    end in
  sort_desc weight weighted_keywords.

(** [WikiChatbot.get_best_matching_pages]. *)
Definition get_best_matching_pages (py_float : string -> option Q)
    (wiki_data : list dict) (user_question ai_response : string) (top_n : Z)
    : option (list dict) :=
  match wiki_data with
  | [] => Some []
  | _ => rank_pages wiki_data (generate_keywords py_float user_question ai_response) top_n
  end.

(* ------------------------------------------------------------------ *)
(** ** scraper.py: page extraction

    The BeautifulSoup queries of [extract_page_data] are an external HTML
    parser; [soup] records what they return for one page. *)

Record soup : Type := mkSoup {
  sp_first_heading : option string;       (* h1#firstHeading get_text() *)
  sp_title_tag : option string;           (* <title> get_text() *)
  sp_content_text : option string;        (* content div get_text(), noise removed *)
  sp_category_links : list string;        (* texts of a[href*='Category:'] *)
  sp_links : list (string * string);      (* (href, text) of a[href] *)
  sp_lastmod : option string;             (* li#footer-info-lastmod get_text() *)
  sp_raises : bool                        (* a parser call raises *)
}.

Definition base_url : string := "https://wiki.fosscell.org".

(** [urllib.parse.urljoin(base_url, href)] for an [href] starting with "/"
    (CPython 3.11/3.12). [base_url] has scheme "https", netloc
    [base_netloc] and an empty path, params, query and fragment. The checks
    [urlsplit] makes on a bracketed IPv6 host, which can raise [ValueError],
    are not modelled. *)
Definition base_netloc : string := "wiki.fosscell.org".

(** [_UNSAFE_URL_BYTES_TO_REMOVE]: tab, CR and LF are deleted. *)
Fixpoint remove_unsafe (s : string) : string :=
  match s with
  | EmptyString => EmptyString
  | String c s' =>
      if Ascii.eqb c (ascii_of_nat 9) || Ascii.eqb c (ascii_of_nat 13)
         || Ascii.eqb c (ascii_of_nat 10)
      then remove_unsafe s' else String c (remove_unsafe s')
  end.

(** [_splitnetloc(url, 2)] after the leading "//" is dropped. *)
Fixpoint split_netloc (s : string) : string * string :=
  match s with
  | EmptyString => ("", "")
  | String c s' =>
      if Ascii.eqb c "/" || Ascii.eqb c "?" || Ascii.eqb c "#" then ("", s)
      else let '(a, b) := split_netloc s' in (String c a, b)
  end.

(** [if sep in url: url, x = url.split(sep, 1)], with [x = ''] otherwise. *)
Definition split_off (sep : ascii) (s : string) : string * string :=
  match split_first sep s with Some p => p | None => (s, "") end.

(** [_splitparams(path)] for a path containing "/": params follow the first
    ";" of the last segment. *)
Definition split_params (path : string) : string * string :=
  match rev (split_char "/" path) with
  | last :: rinit =>
      match split_first ";" last with
      | Some (a, b) => (py_join "/" (rev rinit ++ [a])%list, b)
      | None => (path, "")
      end
  | [] => (path, "")
  end.

(** The loop of [urljoin] over [base_parts + path.split('/')] for an absolute
    path: ".." pops (nothing on an empty stack), "." is skipped. *)
Fixpoint resolve_segments (acc segs : list string) : list string :=
  match segs with
  | [] => acc
  | seg :: segs' =>
      if String.eqb seg ".." then resolve_segments (removelast acc) segs'
      else if String.eqb seg "." then resolve_segments acc segs'
      else resolve_segments (acc ++ [seg])%list segs'
  end.

Definition remove_dot_segments (path : string) : string :=
  let segments := split_char "/" path in
  let resolved_path := resolve_segments [] segments in
  let resolved_path :=
    match rev segments with
    | last :: _ =>
        if String.eqb last "." || String.eqb last ".."
        then (resolved_path ++ [""])%list else resolved_path
    | [] => resolved_path
    end in
  match py_join "/" resolved_path with "" => "/" | p => p end.

(** [urlunparse(('https', netloc, path, params, query, fragment))] *)
Definition urlunparse_https (netloc path params query fragment : string) : string :=
  let url := if String.eqb params "" then path else path ++ ";" ++ params in
  let url := match url with
             | EmptyString => url
             | String c _ => if Ascii.eqb c "/" then url else "/" ++ url
             end in
  let url := "https://" ++ netloc ++ url in
  let url := if String.eqb query "" then url else url ++ "?" ++ query in
  if String.eqb fragment "" then url else url ++ "#" ++ fragment.

Definition urljoin_base (href : string) : string :=
  let url := remove_unsafe href in
  let '(netloc, url) :=
    if startswith "//" url then split_netloc (str_drop 2 url) else ("", url) in
  let '(url, fragment) := split_off "#" url in
  let '(path, query) := split_off "?" url in
  let '(path, params) := if py_in ";" path then split_params path else (path, "") in
  if negb (String.eqb netloc "") then urlunparse_https netloc path params query fragment
  else if String.eqb path "" && String.eqb params "" then
    urlunparse_https base_netloc "" "" query fragment
  else urlunparse_https base_netloc (remove_dot_segments path) params query fragment.

Fixpoint add_categories (acc : list string) (links : list string) : list string :=
  match links with
  | [] => acc
  | l :: links' =>
      let category := py_strip l in
      if negb (String.eqb category "") && negb (existsb (String.eqb category) acc)
      then add_categories (acc ++ [category])%list links'
      else add_categories acc links'
  end.

(** The loop over [soup.find_all('a', href=True)]; [urljoin_base href] is
    [urljoin(self.base_url, href)]. *)
Fixpoint add_links (acc : list (string * string)) (links : list (string * string))
    : list (string * string) :=
  match links with
  | [] => acc
  | (href, text) :: links' =>
      if startswith "/" href && negb (startswith "//" href) then
        let full_url := urljoin_base href in
        let link_text := py_strip text in
        if negb (String.eqb link_text "")
           && negb (existsb (String.eqb full_url) (map snd acc))
        then add_links (acc ++ [(link_text, full_url)])%list links'
        else add_links acc links'
      else add_links acc links'
  end.

(** [WikiScraper.extract_page_data]; [now] is [time.time()]. *)
Definition extract_page_data (sp : soup) (url : string) (now : Q) : option dict :=
  if sp_raises sp then None else
  let title :=
    match sp_first_heading sp with
    | Some t => py_strip t
    | None => match sp_title_tag sp with
              | Some t => py_strip t
              | None => "Unknown Title"
              end
    end in
  let text_content :=
    match sp_content_text sp with
    | Some t => py_join " " (py_split (py_strip t))
    | None => ""
    end in
  let categories := add_categories [] (sp_category_links sp) in
  let internal_links := add_links [] (sp_links sp) in
  let last_modified :=
    match sp_lastmod sp with Some t => JStr (py_strip t) | None => JNull end in
  Some [("title", JStr title);
        ("url", JStr url);
        ("text_content", JStr text_content);
        ("categories", JArr (map JStr categories));
        ("internal_links",
          JArr (map (fun '(t, u) => JObj [("text", JStr t); ("url", JStr u)])
                    (firstn 10%nat internal_links)));
        ("last_modified", last_modified);
        ("scraped_at", JNum now);
        ("word_count",
          JNum (if String.eqb text_content "" then 0
                else inject_Z (Z.of_nat (List.length (py_split text_content)))))].

(* ------------------------------------------------------------------ *)
(** ** scraper.py: the random-discovery crawler *)

(** What the network and the parser do for one [get_random_page] call. *)
Inductive body_outcome : Type :=
| BodyRaises                  (* [await response.text()] raises or times out *)
| BodyHtml (sp : soup).

Inductive fetch_outcome : Type :=
| FRaises                     (* the request raises before a response *)
| FResponse (status : Z) (final_url : string) (body : body_outcome).

(** The mutable fields of [WikiScraper] used by the crawl: the set
    [scraped_pages] (a list without duplicates) and [scraped_data]. *)
Record scraper : Type := mkScraper {
  scraped_pages : list string;
  scraped_data : list dict
}.

Definition set_mem (u : string) (s : list string) : bool := existsb (String.eqb u) s.

Definition set_add (u : string) (s : list string) : list string :=
  if set_mem u s then s else (s ++ [u])%list.

(** [set(l)] *)
Fixpoint set_of_list (l : list string) : list string :=
  match l with
  | [] => []
  | u :: l' => let s := set_of_list l' in if set_mem u s then s else u :: s
  end.

(** [WikiScraper.get_random_page]: the check of [scraped_pages] and the
    [add] run with no [await] between them, so each call performs them
    atomically. *)
Definition get_random_page (now : Q) (st : scraper) (o : fetch_outcome)
    : scraper * option dict :=
  match o with
  | FRaises => (st, None)
  | FResponse status final_url body =>
      if negb (Z.eqb status 200) then (st, None)
      else if set_mem final_url (scraped_pages st) then (st, None)
      else
        let st := mkScraper (set_add final_url (scraped_pages st)) (scraped_data st) in
        match body with
        | BodyRaises => (st, None)
        | BodyHtml sp => (st, extract_page_data sp final_url now)
        end
  end.

(** Observable effects of a crawl run. *)
Inductive event : Type :=
| EFetch                                            (* one get_random_page call *)
| ECheckpoint (data : list dict) (urls : list string) (* save_checkpoint() *)
| ESaveData (data : list dict)                      (* save_data() *)
| ECleanup.                                         (* cleanup_checkpoint() *)

Definition save_checkpoint (st : scraper) : event :=
  ECheckpoint (scraped_data st) (scraped_pages st).

(** One batch: the calls of [get_random_page] (in the order their
    duplicate checks run) followed by the [for result in results] loop. *)
Fixpoint run_batch (now : Q) (st : scraper) (outcomes : list fetch_outcome)
    (results : list dict) (tr : list event) : scraper * list dict * list event :=
  match outcomes with
  | [] => (st, results, tr)
  | o :: os =>
      let '(st', r) := get_random_page now st o in
      let results := match r with Some p => (results ++ [p])%list | None => results end in
      run_batch now st' os results (tr ++ [EFetch])%list
  end.

(** Ctrl-C under [asyncio.run] (Python 3.11 and later) cancels the main
    task: a [CancelledError] is raised at the [await] it is suspended on.
    [CancelledError] is a [BaseException] but not an [Exception] (nor a
    [KeyboardInterrupt]), so none of the handlers of [scrape_pages] and
    [main] catches it. *)
Inductive exn : Type :=
| ExcError         (* an [Exception] *)
| ExcInterrupt.    (* the [CancelledError] of a Ctrl-C *)

(** What happens in one iteration of the [while] loop: the batch completes;
    or an exception is raised while awaiting the [gather], after the first
    [started] tasks (in the order their duplicate checks run) went through
    [get_random_page] (their additions to [scraped_pages] stay, their
    results are lost); or it is raised after the batch was merged, while
    awaiting [asyncio.sleep]. *)
Inductive iter_event : Type :=
| IterBatch (draw : nat -> fetch_outcome)
| IterRaiseGather (draw : nat -> fetch_outcome) (started : nat) (e : exn)
| IterRaiseSleep (draw : nat -> fetch_outcome) (e : exn).

Inductive loop_result : Type :=
| LDone (st : scraper) (tr : list event)
| LRaised (e : exn) (st : scraper) (tr : list event)
| LFuel (st : scraper) (tr : list event).

Definition checkpoint_interval : nat := 10.

Definition merge_batch (now : Q) (st : scraper) (draw : nat -> fetch_outcome)
    (batch_size : nat) (tr : list event) : scraper * list event :=
  let '(st', results, tr') :=
    run_batch now st (map draw (seq 0 batch_size)) [] tr in
  let st' := mkScraper (scraped_pages st') (scraped_data st' ++ results)%list in
  let tr' :=
    if Nat.eqb (List.length (scraped_data st') mod checkpoint_interval) 0
    then (tr' ++ [save_checkpoint st'])%list else tr' in
  (st', tr').

(** The [while len(self.scraped_data) < target_pages] loop; [iter i] is
    the fate of the [i]-th iteration, [fuel] bounds the iterations run. *)
Fixpoint crawl_loop (fuel : nat) (now : Q) (target_pages : Z) (max_concurrent : nat)
    (iter : nat -> iter_event) (i : nat) (st : scraper) (tr : list event)
    : loop_result :=
  if negb (Z.of_nat (List.length (scraped_data st)) <? target_pages)%Z
  then LDone st tr
  else match fuel with
  | O => LFuel st tr
  | S fuel' =>
      let remaining := (target_pages - Z.of_nat (List.length (scraped_data st)))%Z in
      let batch_size := Nat.min max_concurrent (Z.to_nat remaining) in
      match iter i with
      | IterRaiseGather draw started e =>
          let '(st', _, tr') :=
            run_batch now st (firstn started (map draw (seq 0 batch_size))) [] tr in
          LRaised e st' tr'
      | IterBatch draw =>
          let '(st', tr') := merge_batch now st draw batch_size tr in
          crawl_loop fuel' now target_pages max_concurrent iter (S i) st' tr'
      | IterRaiseSleep draw e =>
          let '(st', tr') := merge_batch now st draw batch_size tr in
          LRaised e st' tr'
      end
  end.

(** The checkpoint file as [json.load] sees it. *)
Inductive ckpt_file : Type :=
| CkMalformed
| CkData (data : list dict) (urls : list string).

(** [WikiScraper.load_checkpoint]; [None] is a missing file. *)
Definition load_checkpoint (ck : option ckpt_file) (st : scraper) : scraper :=
  match ck with
  | Some (CkData data urls) => mkScraper (set_of_list urls) data
  | _ => st
  end.

Inductive scrape_result : Type :=
| SPReturned (data : list dict) (st : scraper) (tr : list event)
| SPRaised (e : exn) (st : scraper) (tr : list event)
| SPRunning (st : scraper) (tr : list event).

(** [WikiScraper.scrape_pages]. *)
Definition scrape_pages (fuel : nat) (now : Q) (max_concurrent : nat)
    (iter : nat -> iter_event) (ck : option ckpt_file) (st0 : scraper)
    (target_pages : Z) : scrape_result :=
  let st := load_checkpoint ck st0 in
  let pages_needed := (target_pages - Z.of_nat (List.length (scraped_data st)))%Z in
  if (pages_needed <=? 0)%Z then SPReturned (scraped_data st) st []
  else
    match crawl_loop fuel now target_pages max_concurrent iter 0 st [] with
    | LDone st tr => SPReturned (scraped_data st) st (tr ++ [save_checkpoint st])%list
    | LRaised ExcError st tr => SPRaised ExcError st (tr ++ [save_checkpoint st])%list
    | LRaised ExcInterrupt st tr => SPRaised ExcInterrupt st tr
    | LFuel st tr => SPRunning st tr
    end.






(* ------------------------------------------------------------------ *)
(** ** scraper.py: the file operations of [save_checkpoint]

    A file system maps paths to contents; a file's content is the list of
    chunks written to it since it was opened for writing.  A process crash
    stops the sequence of operations at any point. *)

Definition fs := string -> option (list string).

Definition fs_update (f : fs) (p : string) (v : option (list string)) : fs :=
  fun q => if String.eqb q p then v else f q.

Inductive fs_op : Type :=
| OpOpenW (path : string)                 (* open(path, 'w'): create or truncate *)
| OpWrite (path : string) (chunk : string) (* f.write(chunk) through the open handle *)
| OpReplace (src dst : string).           (* os.replace(src, dst) *)

Definition apply_op (f : fs) (op : fs_op) : fs :=
  match op with
  | OpOpenW p => fs_update f p (Some [])
  | OpWrite p c =>
      match f p with
      | Some l => fs_update f p (Some (l ++ [c])%list)
      | None => f
      end
  | OpReplace src dst =>
      match f src with
      | Some l => fs_update (fs_update f dst (Some l)) src None
      | None => f
      end
  end.

Definition run_ops (f : fs) (ops : list fs_op) : fs := fold_left apply_op ops f.

(** The operations of [save_checkpoint] when [json.dump] emits [chunks]:
    write [checkpoint_file + '.tmp'], then [os.replace] it onto
    [checkpoint_file]. *)
Definition save_checkpoint_ops (checkpoint_file : string) (chunks : list string)
    : list fs_op :=
  let temp_file := checkpoint_file ++ ".tmp" in
  (OpOpenW temp_file :: map (OpWrite temp_file) chunks
   ++ [OpReplace temp_file checkpoint_file])%list.

(* ------------------------------------------------------------------ *)
(** ** removeTitles.py *)

(** The loop over [data['pages']]: keep a page when [input_text not in
    page['title']].  [None] when the script raises (no [pages] list, a page
    that is not an object, a missing or non-[str] title). *)
Fixpoint keep_pages (input_text : string) (pages : list json) : option (list json) :=
  match pages with
  | [] => Some []
  | JObj page :: pages' =>
      match dict_get page "title", keep_pages input_text pages' with
      | Some (JStr title), Some r =>
          Some (if negb (py_in input_text title) then JObj page :: r else r)
      | _, _ => None
      end
  | _ :: _ => None
  end.

(** The script: the JSON value written back to [wiki_data.json]. *)
Definition remove_titles (data : dict) (input_text : string) : option json :=
  match dict_get data "pages" with
  | Some (JArr pages) =>
      match keep_pages input_text pages with
      | Some kept => Some (JObj [("pages", JArr kept)])
      | None => None
      end
  | _ => None
  end.

(* ------------------------------------------------------------------ *)
(** ** Specification-side definitions

    These follow the wording of the specification and are compared with
    the definitions above. *)

(** The three lowered fields [calculate_match_score] reads from a page. *)
Definition page_fields (page : dict) : option (string * string * string) :=
  match get_lower page "title", get_lower page "content", categories_str page with
  | Some t, Some c, Some g => Some (t, c, g)
  | _, _, _ => None
  end.

(** The score counting only the title and category terms: [score_step]
    without its two content terms. *)
Definition title_cat_step (title categories : string) (score : Q) (kw_data : wkw) : Q :=
  let keyword := keyword kw_data in
  let weight := weight kw_data in
  let score :=
    if String.eqb keyword title then score + 50 * weight
    else if py_in keyword title then score + 20 * weight
    else score in
  let score := if py_in keyword categories then score + 15 * weight else score in
  let score := if wb_search keyword title then score + 25 * weight else score in
  fold_left
    (fun score word =>
       if py_in keyword word && (3 <? length keyword)%nat
       then score + 3 * weight else score)
    (py_split title) score.

Definition title_cat_score (title categories : string) (kws : list wkw) : Q :=
  fold_left (title_cat_step title categories) kws 0.

(** The exact-title term and the whole-word-in-title term of one keyword. *)
Definition title_terms (kw : wkw) (title : string) : Q :=
  (if String.eqb (keyword kw) title then 50 * weight kw
   else if py_in (keyword kw) title then 20 * weight kw else 0)
  + (if wb_search (keyword kw) title then 25 * weight kw else 0).

(** The weighted keyword list with the weight of entry [i] replaced. *)
Definition set_weight (i : nat) (w : Q) (kws : list wkw) : list wkw :=
  (firstn i kws ++ map (fun kw => mkWkw (keyword kw) w) (firstn 1 (skipn i kws))
   ++ skipn (S i) kws)%list.

(** Keyword parsing as the specification words it: for each line with a
    [':'], split at the first one, lowercase and trim the term, parse the
    trimmed weight; keep it when [len(term) > 1] and [1 <= weight <= 10]. *)
Definition parse_line_spec (py_float : string -> option Q) (line : string)
    : option wkw :=
  if py_in ":" line then
    match split_first ":"%char line with
    | Some (t, w) =>
        let term := py_strip (py_lower t) in
        match py_float (py_strip w) with
        | Some x =>
            if (1 <? length term)%nat && Qle_bool 1 x && Qle_bool x 10
            then Some (mkWkw term x) else None
        | None => None
        end
    | None => None
    end
  else None.

(** The keyword sequence before ordering: the parsed pairs, or, when none
    survives, the question's lowercased whitespace tokens longer than two
    characters with weight 10. *)
Definition keywords_spec (py_float : string -> option Q)
    (user_question ai_response : string) : list wkw :=
  let pairs :=
    flat_map (fun line => match parse_line_spec py_float line with
                          | Some k => [k] | None => [] end)
             (split_char newline ai_response) in
  match pairs with
  | [] => map (fun t => mkWkw t 10)
              (filter (fun t => (2 <? length t)%nat) (py_split (py_lower user_question)))
  | _ => pairs
  end.

(** The URL a scraped page records. *)
Definition page_url (page : dict) : option string :=
  match dict_get page "url" with Some (JStr u) => Some u | _ => None end.

(** The duplicate-suppression invariant relating [scraped_pages] and
    [scraped_data]: the set has no duplicates, and the pages carry pairwise
    distinct URLs, all in the set. *)
Definition url_inv (urls : list string) (data : list dict) : Prop :=
  NoDup urls /\
  exists us, map page_url data = map Some us /\ NoDup us /\ incl us urls.

Definition sp_trace (r : scrape_result) : list event :=
  match r with
  | SPReturned _ _ tr | SPRaised _ _ tr | SPRunning _ tr => tr
  end.


(** Whether a corpus page's title contains [s] ([s in page['title']]). *)
Definition title_contains (s : string) (page : json) : bool :=
  match page with
  | JObj d => match dict_get d "title" with Some (JStr t) => py_in s t | _ => false end
  | _ => false
  end.

Definition has_str_title (page : json) : Prop :=
  exists d t, page = JObj d /\ dict_get d "title" = Some (JStr t).

(** The score of a page, [0] for a page whose scoring raises. *)
Definition page_score (kws : list wkw) (page : dict) : Q :=
  match calculate_match_score page kws with Some s => s | None => 0 end.

(** Descending order of a key. *)
Definition desc {A : Type} (key : A -> Q) (a b : A) : Prop := key b <= key a.

(* ================================================================== *)
(** * Proofs *)

(** ** removeTitles.py *)

Lemma keep_pages_filter (s : string) (pages : list json) :
  Forall has_str_title pages ->
  keep_pages s pages = Some (filter (fun p => negb (title_contains s p)) pages).
Proof.
  induction pages as [|p ps IH]; intros Hall; [reflexivity|].
  inversion Hall as [|? ? [d [t [-> Ht]]] Hps]; subst.
  cbn [keep_pages filter]. rewrite Ht, (IH Hps).
  unfold title_contains. rewrite Ht. reflexivity.
Qed.

(** C10: running the curation script with substring [s] on a corpus whose
    pages all have a string title writes back a corpus whose [pages] are
    exactly the original pages whose title does not contain [s], in their
    original order. *)
Theorem remove_titles_keeps_exactly (data : dict) (s : string) (pages : list json) :
  dict_get data "pages" = Some (JArr pages) ->
  Forall has_str_title pages ->
  remove_titles data s
  = Some (JObj [("pages", JArr (filter (fun p => negb (title_contains s p)) pages))]).
Proof.
  intros Hp Hall. unfold remove_titles. rewrite Hp, keep_pages_filter by exact Hall.
  reflexivity.
Qed.

Lemma remove_titles_keeps_exactly_witness :
  let data := [("pages", JArr [JObj [("title", JStr "Docker Setup")];
                               JObj [("title", JStr "Old Draft")]])] in
  remove_titles data "Draft"
  = Some (JObj [("pages", JArr [JObj [("title", JStr "Docker Setup")]])]).
Proof.
  intros data.
  refine (eq_trans (remove_titles_keeps_exactly data "Draft" _ eq_refl _) _).
  - repeat constructor; eexists; eexists; split; reflexivity.
  - vm_compute. reflexivity.
Defined.

(** ** List and string lemmas *)

Lemma in_firstn {A : Type} (n : nat) (l : list A) (x : A) :
  In x (firstn n l) -> In x l.
Proof.
  intros H. rewrite <- (firstn_skipn n l). apply in_or_app. now left.
Qed.

Lemma str_append_assoc (a b c : string) : (a ++ b) ++ c = a ++ (b ++ c).
Proof. induction a as [|x a IH]; simpl; [reflexivity | now rewrite IH]. Qed.

Lemma str_append_nil (a : string) : a ++ "" = a.
Proof. induction a as [|x a IH]; simpl; [reflexivity | now rewrite IH]. Qed.

Lemma str_length_append (a b : string) : length (a ++ b) = (length a + length b)%nat.
Proof. induction a as [|x a IH]; simpl; [reflexivity | now rewrite IH]. Qed.

Lemma temp_file_differs (cp : string) : String.eqb cp (cp ++ ".tmp") = false.
Proof.
  apply String.eqb_neq. intros H.
  apply (f_equal String.length) in H. rewrite str_length_append in H. simpl in H. lia.
Qed.

(** ** save_checkpoint: file operations *)

Lemma run_ops_cons (f : fs) (op : fs_op) (ops : list fs_op) :
  run_ops f (op :: ops) = run_ops (apply_op f op) ops.
Proof. reflexivity. Qed.

Definition op_only_on (p : string) (op : fs_op) : Prop :=
  match op with
  | OpOpenW q | OpWrite q _ => q = p
  | OpReplace _ _ => False
  end.

Lemma run_ops_other_paths (f : fs) (p q : string) (ops : list fs_op) :
  Forall (op_only_on p) ops -> String.eqb q p = false ->
  run_ops f ops q = f q.
Proof.
  revert f. induction ops as [|op ops IH]; intros f Hall Hq; [reflexivity|].
  inversion Hall as [|? ? Hop Hops]; subst.
  rewrite run_ops_cons, (IH _ Hops Hq).
  destruct op as [r | r c | r r']; simpl in Hop; try contradiction; subst r.
  - unfold apply_op, fs_update. now rewrite Hq.
  - unfold apply_op. destruct (f p); [unfold fs_update; now rewrite Hq | reflexivity].
Qed.

Lemma run_writes (f : fs) (p : string) (l chunks : list string) :
  f p = Some l ->
  run_ops f (map (OpWrite p) chunks) p = Some (l ++ chunks)%list.
Proof.
  revert f l. induction chunks as [|c cs IH]; intros f l Hf.
  - simpl. now rewrite app_nil_r.
  - simpl map. rewrite run_ops_cons, (IH _ (l ++ [c])%list).
    + now rewrite <- app_assoc.
    + simpl. rewrite Hf. unfold fs_update. now rewrite String.eqb_refl.
Qed.

Lemma save_ops_prefix (cp : string) (chunks : list string) (k : nat) :
  (k < List.length (save_checkpoint_ops cp chunks))%nat ->
  Forall (op_only_on (cp ++ ".tmp")) (firstn k (save_checkpoint_ops cp chunks)).
Proof.
  unfold save_checkpoint_ops. intros Hk.
  assert (Hall : Forall (op_only_on (cp ++ ".tmp"))
                        (OpOpenW (cp ++ ".tmp") :: map (OpWrite (cp ++ ".tmp")) chunks)).
  { constructor; [reflexivity|]. apply Forall_forall. intros op Hin.
    apply in_map_iff in Hin as [c [<- _]]. reflexivity. }
  rewrite app_comm_cons, firstn_app.
  rewrite app_comm_cons, length_app in Hk. simpl in Hk. rewrite length_map in Hk.
  replace (k - List.length (OpOpenW (cp ++ ".tmp") :: map (OpWrite (cp ++ ".tmp")) chunks))%nat
    with 0%nat by (simpl; rewrite length_map; lia).
  simpl firstn at 2. rewrite app_nil_r.
  apply Forall_forall. intros op Hin. apply in_firstn in Hin.
  rewrite Forall_forall in Hall. now apply Hall.
Qed.

(** C7: [save_checkpoint] writes the serialized state to
    [checkpoint_file + '.tmp'] and installs it with one [os.replace]: a crash
    after any strict prefix of its operations (that is, before the rename
    has happened) leaves the content at [checkpoint_file] exactly as it was
    (so a previously committed, parseable checkpoint stays intact and
    parseable), and the completed sequence leaves there exactly the chunks
    [json.dump] wrote. *)
Theorem save_checkpoint_atomic (cp : string) (chunks : list string) (f : fs) :
  (forall k, (k < List.length (save_checkpoint_ops cp chunks))%nat ->
             run_ops f (firstn k (save_checkpoint_ops cp chunks)) cp = f cp)
  /\ run_ops f (save_checkpoint_ops cp chunks) cp = Some chunks.
Proof.
  split.
  - intros k Hk. apply (run_ops_other_paths _ (cp ++ ".tmp")).
    + now apply save_ops_prefix.
    + apply temp_file_differs.
  - unfold save_checkpoint_ops, run_ops.
    rewrite app_comm_cons, fold_left_app.
    fold (run_ops f (OpOpenW (cp ++ ".tmp") :: map (OpWrite (cp ++ ".tmp")) chunks)).
    set (g := run_ops f (OpOpenW (cp ++ ".tmp") :: map (OpWrite (cp ++ ".tmp")) chunks)).
    assert (Hg : g (cp ++ ".tmp") = Some chunks).
    { unfold g. rewrite run_ops_cons.
      apply (run_writes _ _ []). simpl. unfold fs_update. now rewrite String.eqb_refl. }
    simpl. rewrite Hg. unfold fs_update.
    rewrite temp_file_differs, String.eqb_refl. reflexivity.
Qed.

(** ** scrape_pages: a met target *)

(** C9: when the pages loaded from the checkpoint already reach the target,
    [scrape_pages] performs no fetch (its trace is empty) and returns the
    loaded corpus unchanged. *)
Theorem scrape_pages_target_met (fuel : nat) (now : Q) (max_concurrent : nat)
    (iter : nat -> iter_event) (ck : option ckpt_file) (st0 : scraper) (target_pages : Z) :
  (target_pages <= Z.of_nat (List.length (scraped_data (load_checkpoint ck st0))))%Z ->
  scrape_pages fuel now max_concurrent iter ck st0 target_pages
  = SPReturned (scraped_data (load_checkpoint ck st0)) (load_checkpoint ck st0) [].
Proof.
  intros H. unfold scrape_pages.
  replace ((target_pages - Z.of_nat (List.length (scraped_data (load_checkpoint ck st0))) <=? 0)%Z)
    with true by (symmetry; apply Z.leb_le; lia).
  reflexivity.
Qed.

Lemma scrape_pages_target_met_witness :
  let ck := Some (CkData [[("title", JStr "Home"); ("url", JStr "u1")]] ["u1"]) in
  scrape_pages 5 0 20 (fun _ => IterRaiseGather (fun _ => FRaises) 0 ExcError) ck
    (mkScraper [] []) 1
  = SPReturned [[("title", JStr "Home"); ("url", JStr "u1")]]
               (mkScraper ["u1"] [[("title", JStr "Home"); ("url", JStr "u1")]]) [].
Proof.
  intros ck. apply (scrape_pages_target_met 5 0 20 _ ck (mkScraper [] []) 1).
  vm_compute. discriminate.
Defined.

(** ** The stable descending sort *)

Section SortFacts.
Context {A : Type} (key : A -> Q).

Lemma insert_desc_perm (x : A) (l : list A) :
  Permutation (insert_desc key x l) (x :: l).
Proof.
  induction l as [|y l IH]; simpl; [reflexivity|].
  destruct (Qle_bool (key y) (key x)); [reflexivity|].
  rewrite IH. apply perm_swap.
Qed.

Lemma sort_desc_perm (l : list A) : Permutation (sort_desc key l) l.
Proof.
  induction l as [|x l IH]; simpl; [reflexivity|].
  rewrite insert_desc_perm. now apply perm_skip.
Qed.

Lemma insert_desc_hd (x y : A) (l : list A) :
  HdRel (desc key) y l -> (desc key) y x -> HdRel (desc key) y (insert_desc key x l).
Proof.
  destruct l as [|z l]; simpl; intros Hh Hyx.
  - now constructor.
  - destruct (Qle_bool (key z) (key x)); constructor; [exact Hyx|].
    now inversion Hh.
Qed.

Lemma insert_desc_sorted (x : A) (l : list A) :
  Sorted (desc key) l -> Sorted (desc key) (insert_desc key x l).
Proof.
  induction l as [|y l IH]; simpl; intros Hs; [now repeat constructor|].
  destruct (Qle_bool (key y) (key x)) eqn:E.
  - constructor; [exact Hs|]. constructor. unfold desc. now apply Qle_bool_iff.
  - inversion Hs as [|? ? Hl Hh]; subst. constructor; [now apply IH|].
    apply insert_desc_hd; [exact Hh|]. unfold desc.
    apply Qlt_le_weak, Qnot_le_lt. intros Hc. apply Qle_bool_iff in Hc. congruence.
Qed.

Lemma sort_desc_sorted (l : list A) : Sorted (desc key) (sort_desc key l).
Proof.
  induction l as [|x l IH]; simpl; [constructor|]. now apply insert_desc_sorted.
Qed.

Lemma filter_insert_desc (v : Q) (x : A) (l : list A) :
  filter (fun a => Qeq_bool (key a) v) (insert_desc key x l)
  = if Qeq_bool (key x) v then x :: filter (fun a => Qeq_bool (key a) v) l
    else filter (fun a => Qeq_bool (key a) v) l.
Proof.
  induction l as [|y l IH]; simpl.
  - destruct (Qeq_bool (key x) v); reflexivity.
  - destruct (Qle_bool (key y) (key x)) eqn:E; simpl.
    + reflexivity.
    + rewrite IH.
      destruct (Qeq_bool (key x) v) eqn:Ex; [|reflexivity].
      destruct (Qeq_bool (key y) v) eqn:Ey; [|reflexivity].
      apply Qeq_bool_iff in Ex, Ey.
      assert (Hle : key y <= key x) by (rewrite Ex, Ey; apply Qle_refl).
      apply Qle_bool_iff in Hle. congruence.
Qed.

(** Stability: among elements of any given key, the sorted list keeps the
    original order. *)
Lemma filter_sort_desc (v : Q) (l : list A) :
  filter (fun a => Qeq_bool (key a) v) (sort_desc key l)
  = filter (fun a => Qeq_bool (key a) v) l.
Proof.
  induction l as [|x l IH]; simpl; [reflexivity|].
  rewrite filter_insert_desc, IH. reflexivity.
Qed.

Lemma hdrel_firstn (a : A) (n : nat) (l : list A) :
  HdRel (desc key) a l -> HdRel (desc key) a (firstn n l).
Proof.
  destruct n, l; simpl; intros H; try constructor. now inversion H.
Qed.

Lemma sorted_firstn (n : nat) (l : list A) :
  Sorted (desc key) l -> Sorted (desc key) (firstn n l).
Proof.
  revert n. induction l as [|x l IH]; intros [|n] Hs; simpl; [constructor..|].
  inversion Hs; subst. constructor; [now apply IH|]. now apply hdrel_firstn.
Qed.
End SortFacts.

(** ** Ranking *)

Lemma score_pages_spec (kws : list wkw) (wiki : list dict) (ps : list (dict * Q)) :
  score_pages kws wiki = Some ps ->
  ps = map (fun p => (p, page_score kws p))
           (filter (fun p => Qltb 0 (page_score kws p)) wiki).
Proof.
  revert ps. induction wiki as [|p wiki IH]; simpl; intros ps H.
  - now injection H as <-.
  - destruct (calculate_match_score p kws) as [s|] eqn:E; [|discriminate].
    destruct (score_pages kws wiki) as [r|]; [|discriminate].
    injection H as <-. rewrite (IH r eq_refl).
    assert (Hs : page_score kws p = s) by (unfold page_score; now rewrite E).
    rewrite Hs. destruct (Qltb 0 s); simpl; rewrite ?Hs; reflexivity.
Qed.

Lemma score_pages_total (kws : list wkw) (wiki : list dict) (ps : list (dict * Q)) (p : dict) :
  score_pages kws wiki = Some ps -> In p wiki ->
  exists s, calculate_match_score p kws = Some s.
Proof.
  revert ps. induction wiki as [|q wiki IH]; simpl; intros ps H Hin; [contradiction|].
  destruct (calculate_match_score q kws) as [s|] eqn:Eq; [|discriminate].
  destruct (score_pages kws wiki) as [r|] eqn:Er; [|discriminate].
  destruct Hin as [<-|Hin]; [now exists s|]. now apply (IH r).
Qed.

Lemma insert_desc_pairs {A : Type} (f : A -> Q) (x : A) (l : list A) :
  insert_desc snd (x, f x) (map (fun p => (p, f p)) l)
  = map (fun p => (p, f p)) (insert_desc f x l).
Proof.
  induction l as [|y l IH]; simpl; [reflexivity|].
  destruct (Qle_bool (f y) (f x)); simpl; [reflexivity|]. now rewrite IH.
Qed.

Lemma sort_desc_pairs {A : Type} (f : A -> Q) (l : list A) :
  sort_desc snd (map (fun p => (p, f p)) l) = map (fun p => (p, f p)) (sort_desc f l).
Proof.
  induction l as [|x l IH]; simpl; [reflexivity|]. now rewrite IH, insert_desc_pairs.
Qed.

Lemma Qltb_true (x y : Q) : Qltb x y = true <-> x < y.
Proof.
  unfold Qltb. rewrite negb_true_iff. split; intros H.
  - apply Qnot_le_lt. intros Hc. apply Qle_bool_iff in Hc. congruence.
  - destruct (Qle_bool y x) eqn:E; [|reflexivity].
    apply Qle_bool_iff in E. exfalso. now apply (Qlt_not_le x y).
Qed.

(** C3: whenever ranking with limit [top_n >= 0] returns, it returns
    [min(top_n, count(score > 0))] pages, all of positive score, sorted by
    descending score, and they are the first [top_n] pages of an ordering of
    the positive-score pages that is sorted descending and keeps the corpus
    order among pages of equal score. *)
Theorem rank_pages_top_n (wiki : list dict) (kws : list wkw) (top_n : Z) (out : list dict) :
  (0 <= top_n)%Z ->
  rank_pages wiki kws top_n = Some out ->
  let pos := filter (fun p => Qltb 0 (page_score kws p)) wiki in
  Z.of_nat (List.length out) = Z.min top_n (Z.of_nat (List.length pos))
  /\ Forall (fun p => 0 < page_score kws p) out
  /\ Sorted (desc (page_score kws)) out
  /\ exists full,
       out = firstn (Z.to_nat top_n) full
       /\ Permutation full pos
       /\ Sorted (desc (page_score kws)) full
       /\ forall v, filter (fun p => Qeq_bool (page_score kws p) v) full
                    = filter (fun p => Qeq_bool (page_score kws p) v) pos.
Proof.
  intros Hn Hr pos. unfold rank_pages in Hr.
  destruct (score_pages kws wiki) as [ps|] eqn:Eps; [|discriminate].
  injection Hr as <-.
  rewrite (score_pages_spec _ _ _ Eps). fold pos.
  rewrite sort_desc_pairs. unfold py_slice_upto.
  replace ((0 <=? top_n)%Z) with true by (symmetry; now apply Z.leb_le).
  rewrite firstn_map, map_map. simpl. rewrite map_id.
  set (full := sort_desc (page_score kws) pos).
  assert (Hperm : Permutation full pos) by apply sort_desc_perm.
  assert (Hsorted : Sorted (desc (page_score kws)) full) by apply sort_desc_sorted.
  split; [|split; [|split]].
  - rewrite length_firstn, (Permutation_length Hperm). lia.
  - apply Forall_forall. intros p Hin.
    apply in_firstn, (Permutation_in _ Hperm), filter_In in Hin as [_ Hp].
    now apply Qltb_true.
  - now apply sorted_firstn.
  - exists full. split; [reflexivity|]. split; [exact Hperm|]. split; [exact Hsorted|].
    intros v. apply filter_sort_desc.
Qed.

Lemma rank_pages_top_n_witness :
  let p1 := [("title", JStr "Docker Setup"); ("content", JStr "docker container deployment guide");
             ("categories", JArr [JStr "DevOps"])] in
  let p2 := [("title", JStr "Random Topic"); ("content", JStr "unrelated text docker mentioned once");
             ("categories", JArr [])] in
  let p3 := [("title", JStr "Home"); ("content", JStr "welcome")] in
  rank_pages [p2; p3; p1] [mkWkw "docker" 10] 1 = Some [p1]
  /\ Z.of_nat (List.length [p1])
     = Z.min 1 (Z.of_nat (List.length
         (filter (fun p => Qltb 0 (page_score [mkWkw "docker" 10] p)) [p2; p3; p1]))).
Proof.
  intros p1 p2 p3.
  assert (H : rank_pages [p2; p3; p1] [mkWkw "docker" 10] 1 = Some [p1])
    by (vm_compute; reflexivity).
  split; [exact H|].
  exact (proj1 (rank_pages_top_n [p2; p3; p1] [mkWkw "docker" 10] 1 [p1]
                  ltac:(lia) H)).
Defined.

(** ** Keyword extraction *)

Lemma isspace_lower (c : ascii) : py_isspace (lower_char c) = py_isspace c.
Proof. destruct c as [[] [] [] [] [] [] [] []]; reflexivity. Qed.

Lemma colon_not_space (c : ascii) : py_isspace c = true -> Ascii.eqb ":" c = false.
Proof.
  intros H. destruct (Ascii.eqb_spec ":" c) as [<-|]; [discriminate | reflexivity].
Qed.

Lemma lower_empty (s : string) : String.eqb (py_lower s) "" = String.eqb s "".
Proof. destruct s; reflexivity. Qed.

Lemma lstrip_lower (s : string) : py_lstrip (py_lower s) = py_lower (py_lstrip s).
Proof.
  induction s as [|c s IH]; simpl; [reflexivity|].
  rewrite isspace_lower. destruct (py_isspace c); [exact IH | reflexivity].
Qed.

Lemma rstrip_lower (s : string) : py_rstrip (py_lower s) = py_lower (py_rstrip s).
Proof.
  induction s as [|c s IH]; simpl; [reflexivity|].
  rewrite IH, isspace_lower, lower_empty.
  destruct (py_isspace c && String.eqb (py_rstrip s) ""); reflexivity.
Qed.

Lemma strip_lower (s : string) : py_strip (py_lower s) = py_lower (py_strip s).
Proof. unfold py_strip. now rewrite lstrip_lower, rstrip_lower. Qed.

Lemma lstrip_idem (s : string) : py_lstrip (py_lstrip s) = py_lstrip s.
Proof.
  induction s as [|c s IH]; simpl; [reflexivity|].
  destruct (py_isspace c) eqn:E; [exact IH|]. simpl. now rewrite E.
Qed.

Lemma rstrip_nonspace (c : ascii) (s : string) :
  py_isspace c = false -> py_rstrip (String c s) = String c (py_rstrip s).
Proof. intros H. simpl. now rewrite H. Qed.

Lemma rstrip_idem (s : string) : py_rstrip (py_rstrip s) = py_rstrip s.
Proof.
  induction s as [|c s IH]; simpl; [reflexivity|].
  destruct (py_isspace c) eqn:Ec; simpl.
  - destruct (String.eqb (py_rstrip s) "") eqn:Er; simpl; [reflexivity|].
    rewrite IH, Ec, Er. reflexivity.
  - rewrite IH, Ec. reflexivity.
Qed.

Lemma rstrip_empty_lstrip (s : string) : py_rstrip s = "" -> py_lstrip s = "".
Proof.
  induction s as [|c s IH]; simpl; [reflexivity|].
  destruct (py_isspace c) eqn:Ec; simpl; [|discriminate].
  destruct (String.eqb (py_rstrip s) "") eqn:Er; [|discriminate].
  intros _. apply IH. now apply String.eqb_eq.
Qed.

Lemma lstrip_rstrip (s : string) : py_lstrip (py_rstrip s) = py_rstrip (py_lstrip s).
Proof.
  induction s as [|c s IH]; simpl; [reflexivity|].
  destruct (py_isspace c) eqn:Ec; simpl.
  - destruct (String.eqb (py_rstrip s) "") eqn:Er; simpl.
    + apply String.eqb_eq in Er. rewrite (rstrip_empty_lstrip _ Er). reflexivity.
    + rewrite Ec. exact IH.
  - rewrite Ec. reflexivity.
Qed.

Lemma strip_lstrip (s : string) : py_strip (py_lstrip s) = py_strip s.
Proof. unfold py_strip. now rewrite lstrip_idem. Qed.

Lemma strip_rstrip (s : string) : py_strip (py_rstrip s) = py_strip s.
Proof. unfold py_strip. now rewrite lstrip_rstrip, rstrip_idem. Qed.

Lemma colon_in_cons (d : ascii) (s : string) :
  py_in ":" (String d s) = Ascii.eqb ":" d || py_in ":" s.
Proof. simpl. now rewrite andb_true_r. Qed.

Lemma colon_in_lstrip (s : string) : py_in ":" (py_lstrip s) = py_in ":" s.
Proof.
  induction s as [|c s IH]; simpl py_lstrip; [reflexivity|].
  destruct (py_isspace c) eqn:Ec; [|reflexivity].
  rewrite IH, colon_in_cons, (colon_not_space _ Ec). reflexivity.
Qed.

Lemma colon_in_rstrip (s : string) : py_in ":" (py_rstrip s) = py_in ":" s.
Proof.
  induction s as [|c s IH]; simpl py_rstrip; [reflexivity|].
  rewrite colon_in_cons.
  destruct (py_isspace c && String.eqb (py_rstrip s) "") eqn:E.
  - apply andb_true_iff in E as [Ec Er]. apply String.eqb_eq in Er.
    rewrite (colon_not_space _ Ec), <- IH, Er. reflexivity.
  - rewrite colon_in_cons, IH. reflexivity.
Qed.

Lemma split_first_lstrip (s : string) :
  split_first ":" (py_lstrip s)
  = match split_first ":" s with Some (a, b) => Some (py_lstrip a, b) | None => None end.
Proof.
  induction s as [|c s IH]; simpl; [reflexivity|].
  destruct (py_isspace c) eqn:Ec.
  - rewrite IH. pose proof (colon_not_space _ Ec) as Hc.
    rewrite Ascii.eqb_sym in Hc. rewrite Hc.
    destruct (split_first ":" s) as [[a b]|]; simpl; [rewrite Ec|]; reflexivity.
  - simpl. destruct (Ascii.eqb c ":"); [reflexivity|].
    destruct (split_first ":" s) as [[a b]|]; simpl; [rewrite Ec|]; reflexivity.
Qed.

Lemma split_first_rstrip_nonempty (s : string) (a b : string) :
  split_first ":" s = Some (a, b) -> String.eqb (py_rstrip s) "" = false.
Proof.
  revert a b. induction s as [|c s IH]; simpl; intros a b H; [discriminate|].
  destruct (Ascii.eqb c ":") eqn:Ec.
  - apply Ascii.eqb_eq in Ec. subst c. reflexivity.
  - destruct (split_first ":" s) as [[a' b']|] eqn:Es; [|discriminate].
    rewrite (IH a' b' eq_refl), andb_false_r. reflexivity.
Qed.

Lemma split_first_rstrip (s : string) :
  split_first ":" (py_rstrip s)
  = match split_first ":" s with Some (a, b) => Some (a, py_rstrip b) | None => None end.
Proof.
  induction s as [|c s IH]; simpl; [reflexivity|].
  destruct (Ascii.eqb c ":") eqn:Ec.
  - apply Ascii.eqb_eq in Ec. subst c. simpl. reflexivity.
  - destruct (split_first ":" s) as [[a b]|] eqn:Es.
    + rewrite (split_first_rstrip_nonempty _ _ _ Es), andb_false_r. simpl.
      rewrite Ec, IH. reflexivity.
    + destruct (py_isspace c && String.eqb (py_rstrip s) ""); simpl; [reflexivity|].
      rewrite Ec, IH. reflexivity.
Qed.

Lemma parse_line_eq (py_float : string -> option Q) (line : string) :
  parse_line py_float line = parse_line_spec py_float line.
Proof.
  unfold parse_line, parse_line_spec, py_strip at 1 2.
  rewrite colon_in_rstrip, colon_in_lstrip.
  destruct (py_in ":" line) eqn:Hin; [|reflexivity].
  replace (String.eqb (py_rstrip (py_lstrip line)) "") with false.
  2:{ symmetry. destruct (String.eqb (py_rstrip (py_lstrip line)) "") eqn:E; [|reflexivity].
      apply String.eqb_eq in E. rewrite <- colon_in_lstrip, <- colon_in_rstrip, E in Hin.
      discriminate. }
  simpl. change (split_first ":" (py_strip line))
           with (split_first ":" (py_rstrip (py_lstrip line))).
  rewrite split_first_rstrip, split_first_lstrip.
  destruct (split_first ":" line) as [[a b]|]; [|reflexivity].
  rewrite strip_lstrip, strip_rstrip, strip_lower. reflexivity.
Qed.

Lemma fold_parse_lines (py_float : string -> option Q) (lines : list string) (acc : list wkw) :
  fold_left
    (fun acc line =>
       match parse_line py_float line with Some kw => (acc ++ [kw])%list | None => acc end)
    lines acc
  = (acc ++ flat_map (fun line => match parse_line_spec py_float line with
                                  | Some k => [k] | None => [] end) lines)%list.
Proof.
  revert acc. induction lines as [|l lines IH]; intros acc; simpl.
  - now rewrite app_nil_r.
  - rewrite IH, parse_line_eq.
    destruct (parse_line_spec py_float l); simpl; [now rewrite <- app_assoc | reflexivity].
Qed.

Lemma generate_keywords_sort (py_float : string -> option Q) (q r : string) :
  generate_keywords py_float q r = sort_desc weight (keywords_spec py_float q r).
Proof.
  unfold generate_keywords, keywords_spec. rewrite fold_parse_lines. reflexivity.
Qed.

(** C4: [generate_keywords] returns the keyword sequence the specification
    describes (pairs from lines with a [':'] split at its first occurrence,
    term lowercased and trimmed, weight parsed, kept iff [len(term) > 1] and
    [1 <= weight <= 10]; otherwise the question's lowercased tokens longer
    than two characters at weight 10), ordered by descending weight with the
    first-seen order kept among equal weights. *)
Theorem generate_keywords_spec (py_float : string -> option Q) (q r : string) :
  let out := generate_keywords py_float q r in
  let base := keywords_spec py_float q r in
  Permutation out base
  /\ Sorted (desc weight) out
  /\ forall v, filter (fun k => Qeq_bool (weight k) v) out
               = filter (fun k => Qeq_bool (weight k) v) base.
Proof.
  intros out base. unfold out. rewrite generate_keywords_sort.
  split; [apply sort_desc_perm|]. split; [apply sort_desc_sorted|].
  intros v. apply filter_sort_desc.
Qed.

(** ** Scoring: additivity and linearity in the weights *)

Lemma Qnat_nonneg (n : nat) : 0 <= inject_Z (Z.of_nat n).
Proof. unfold Qle. simpl. lia. Qed.

Lemma inject_succ (n : nat) : inject_Z (Z.of_nat (S n)) == inject_Z (Z.of_nat n) + 1.
Proof. rewrite Nat2Z.inj_succ, <- Z.add_1_r, inject_Z_plus. reflexivity. Qed.

(** The title-word loop adds [d] once per word satisfying [b]. *)
Lemma fold_cond (b : string -> bool) (d s : Q) (ws : list string) :
  fold_left (fun score word => if b word then score + d else score) ws s
  == s + inject_Z (Z.of_nat (List.length (filter b ws))) * d.
Proof.
  revert s. induction ws as [|x ws IH]; intros s; cbn [fold_left filter].
  - unfold inject_Z, Qeq. simpl. lia.
  - rewrite IH. destruct (b x); cbn [List.length]; [rewrite inject_succ|]; ring.
Qed.

Ltac case_ifs :=
  repeat match goal with
         | |- context [if ?b then _ else _] => destruct b
         end.

Lemma score_step_shift (t c g : string) (s : Q) (kw : wkw) :
  score_step t c g s kw == s + score_step t c g 0 kw.
Proof.
  unfold score_step. rewrite !fold_cond. case_ifs; ring.
Qed.

Lemma score_step_scale (t c g k : string) (w : Q) :
  score_step t c g 0 (mkWkw k w) == w * score_step t c g 0 (mkWkw k 1).
Proof.
  unfold score_step. simpl keyword. simpl weight. rewrite !fold_cond. case_ifs; ring.
Qed.

Lemma score_step_coeff_nonneg (t c g k : string) :
  0 <= score_step t c g 0 (mkWkw k 1).
Proof.
  unfold score_step. simpl keyword. simpl weight. rewrite !fold_cond.
  pose proof (Qnat_nonneg (py_count k c)) as H1.
  pose proof (Qnat_nonneg (List.length (filter (fun word => py_in k word && (3 <? length k)%nat)
                                               (py_split t)))) as H2.
  case_ifs; lra.
Qed.

Lemma score_fields_shift (t c g : string) (kws : list wkw) (s : Q) :
  fold_left (score_step t c g) kws s == s + fold_left (score_step t c g) kws 0.
Proof.
  revert s. induction kws as [|kw kws IH]; intros s; simpl; [ring|].
  rewrite (IH (score_step t c g s kw)), (IH (score_step t c g 0 kw)), score_step_shift.
  ring.
Qed.

Lemma score_fields_app (t c g : string) (l1 l2 : list wkw) :
  score_fields t c g (l1 ++ l2) == score_fields t c g l1 + score_fields t c g l2.
Proof.
  unfold score_fields. rewrite fold_left_app, score_fields_shift. reflexivity.
Qed.

Lemma nth_error_split_at {A : Type} (l : list A) (i : nat) (x : A) :
  nth_error l i = Some x -> l = (firstn i l ++ x :: skipn (S i) l)%list /\ skipn i l = x :: skipn (S i) l.
Proof.
  revert i. induction l as [|y l IH]; intros [|i] H; simpl in *; try discriminate.
  - injection H as ->. split; reflexivity.
  - destruct (IH i H) as [H1 H2]. split; [now rewrite <- H1 | exact H2].
Qed.

Lemma calculate_match_score_fields (page : dict) (kws : list wkw) :
  calculate_match_score page kws
  = match page_fields page with
    | Some (t, c, g) => Some (score_fields t c g kws)
    | None => None
    end.
Proof.
  unfold calculate_match_score, page_fields.
  destruct (get_lower page "title"), (get_lower page "content"), (categories_str page);
    reflexivity.
Qed.

(** ** Float rounding is monotone *)

Lemma pow2_pos (e : Z) : 0 < pow2 e.
Proof. apply Qpower_0_lt. lra. Qed.

Lemma pow2_lt (a b : Z) : (a < b)%Z -> pow2 a < pow2 b.
Proof. intros H. apply Qpower_lt_compat_l; [exact H | lra]. Qed.

Lemma pow2_le (a b : Z) : (a <= b)%Z -> pow2 a <= pow2 b.
Proof. intros H. apply Qpower_le_compat_l; [exact H | lra]. Qed.

Lemma pow2_lt_inv (a b : Z) : pow2 a < pow2 b -> (a < b)%Z.
Proof. intros H. apply (Qpower_lt_compat_l_inv 2); [exact H | lra]. Qed.

Lemma pow2_plus (a b : Z) : pow2 (a + b) == pow2 a * pow2 b.
Proof. apply Qpower_plus. discriminate. Qed.

Lemma pow2_Z (a : Z) : (0 <= a)%Z -> pow2 a == inject_Z (2 ^ a).
Proof. intros H. unfold pow2. rewrite Zpower_Qpower by exact H. reflexivity. Qed.

Lemma flog2_spec (q : Q) : 0 < q -> pow2 (flog2 q) <= q /\ q < pow2 (flog2 q + 1).
Proof.
  intros Hq. destruct q as [n d].
  assert (Hn : (0 < n)%Z) by (unfold Qlt in Hq; simpl in Hq; lia).
  unfold flog2. cbn [Qnum Qden].
  set (a := Z.log2 n). set (b := Z.log2 (Zpos d)).
  destruct (Z.log2_spec n Hn) as [Hn1 Hn2]. fold a in Hn1, Hn2.
  destruct (Z.log2_spec (Zpos d) eq_refl) as [Hd1 Hd2]. fold b in Hd1, Hd2.
  assert (Ha : (0 <= a)%Z) by apply Z.log2_nonneg.
  assert (Hb : (0 <= b)%Z) by apply Z.log2_nonneg.
  assert (Eq : n # d == inject_Z n / inject_Z (Zpos d)) by apply Qmake_Qdiv.
  assert (Hdpos : 0 < inject_Z (Zpos d)) by (unfold Qlt; simpl; lia).
  assert (Pa : pow2 a == inject_Z (2 ^ a)) by (apply pow2_Z; exact Ha).
  assert (Pa1 : pow2 (a + 1) == inject_Z (2 ^ (a + 1))) by (apply pow2_Z; lia).
  assert (Pb : pow2 b == inject_Z (2 ^ b)) by (apply pow2_Z; exact Hb).
  assert (Pb1 : pow2 (b + 1) == inject_Z (2 ^ (b + 1))) by (apply pow2_Z; lia).
  assert (Hup : n # d < pow2 (a - b + 1)).
  { rewrite Eq. apply Qlt_shift_div_r; [exact Hdpos|].
    assert (E : pow2 (a + 1) == pow2 (a - b + 1) * pow2 b)
      by (rewrite <- pow2_plus; f_equiv; lia).
    assert (H1 : inject_Z n < pow2 (a + 1)) by (rewrite Pa1, <- Zlt_Qlt; exact Hn2).
    assert (H2 : pow2 b <= inject_Z (Zpos d)) by (rewrite Pb, <- Zle_Qle; exact Hd1).
    pose proof (pow2_pos (a - b + 1)) as H3.
    apply Qlt_le_trans with (1 := H1). rewrite E.
    apply Qmult_le_l; [exact H3 | exact H2]. }
  assert (Hlo : pow2 (a - b - 1) < n # d).
  { rewrite Eq. apply Qlt_shift_div_l; [exact Hdpos|].
    assert (E : pow2 a == pow2 (a - b - 1) * pow2 (b + 1))
      by (rewrite <- pow2_plus; f_equiv; lia).
    assert (H1 : pow2 a <= inject_Z n) by (rewrite Pa, <- Zle_Qle; exact Hn1).
    assert (H2 : inject_Z (Zpos d) < pow2 (b + 1)) by (rewrite Pb1, <- Zlt_Qlt; exact Hd2).
    pose proof (pow2_pos (a - b - 1)) as H3.
    apply Qlt_le_trans with (2 := H1). rewrite E.
    apply Qmult_lt_l; [exact H3 | exact H2]. }
  destruct (Qle_bool (pow2 (a - b)) (n # d)) eqn:E.
  - apply Qle_bool_iff in E. split; [exact E | exact Hup].
  - split.
    + apply Qlt_le_weak. exact Hlo.
    + replace (a - b - 1 + 1)%Z with (a - b)%Z by lia.
      apply Qnot_le_lt. intros H. apply Qle_bool_iff in H. congruence.
Qed.

Lemma flog2_mono (q1 q2 : Q) : 0 < q1 -> q1 <= q2 -> (flog2 q1 <= flog2 q2)%Z.
Proof.
  intros H1 H12. destruct (flog2_spec q1 H1) as [A _].
  destruct (flog2_spec q2 (Qlt_le_trans _ _ _ H1 H12)) as [_ B].
  assert (flog2 q1 < flog2 q2 + 1)%Z; [|lia].
  apply pow2_lt_inv. apply Qle_lt_trans with q1; [exact A|].
  apply Qle_lt_trans with q2; assumption.
Qed.

Lemma round_half_even_bounds (x : Q) :
  (Qfloor x <= round_half_even x <= Qfloor x + 1)%Z.
Proof.
  unfold round_half_even. destruct (Qcompare _ _); [destruct (Z.even _)| |]; lia.
Qed.

Lemma round_half_even_le (x : Q) (z : Z) : x < inject_Z z -> (round_half_even x <= z)%Z.
Proof.
  intros H. pose proof (round_half_even_bounds x).
  assert (Qfloor x < z)%Z; [|lia].
  rewrite Zlt_Qlt. apply Qle_lt_trans with x; [apply Qfloor_le | exact H].
Qed.

Lemma round_half_even_ge (x : Q) (z : Z) : inject_Z z <= x -> (z <= round_half_even x)%Z.
Proof.
  intros H. pose proof (round_half_even_bounds x).
  assert (z <= Qfloor x)%Z; [|lia].
  rewrite <- (Qfloor_Z z). apply Qfloor_resp_le. exact H.
Qed.

Lemma round_half_even_mono (x y : Q) : x <= y -> (round_half_even x <= round_half_even y)%Z.
Proof.
  intros H. pose proof (Qfloor_resp_le x y H) as Hf.
  pose proof (round_half_even_bounds x) as Bx. pose proof (round_half_even_bounds y) as By.
  destruct (Z.eq_dec (Qfloor x) (Qfloor y)) as [E|E]; [|lia].
  unfold round_half_even. rewrite <- E. set (f := Qfloor x).
  assert (Hr : x - inject_Z f <= y - inject_Z f) by lra.
  destruct (Qcompare_spec (x - inject_Z f) (1 # 2)) as [Ex|Ex|Ex];
  destruct (Qcompare_spec (y - inject_Z f) (1 # 2)) as [Ey|Ey|Ey];
  try lia; try (destruct (Z.even f); lia); lra.
Qed.

Lemma round_pos_nonneg (q : Q) : 0 < q -> 0 <= round_pos q.
Proof.
  intros Hq. unfold round_pos. rewrite Qred_correct.
  set (e := Z.max (-1074) (flog2 q - 52)).
  apply Qmult_le_0_compat; [|apply Qlt_le_weak, pow2_pos].
  change 0 with (inject_Z 0). rewrite <- Zle_Qle. apply round_half_even_ge.
  apply Qle_shift_div_l; [apply pow2_pos|].
  setoid_replace (inject_Z 0 * pow2 e) with 0 by ring. lra.
Qed.

(** Below [2 ^ (53 + e1)] a double rounds to at most that power, and
    from [2 ^ (52 + e2)] on to at least that power: a larger exponent
    never rounds lower. *)
Lemma round_pos_mono (q1 q2 : Q) : 0 < q1 -> q1 <= q2 -> round_pos q1 <= round_pos q2.
Proof.
  intros H1 H12. assert (H2 : 0 < q2) by lra.
  pose proof (flog2_mono q1 q2 H1 H12) as Hm.
  destruct (flog2_spec q1 H1) as [_ U1]. destruct (flog2_spec q2 H2) as [L2 _].
  unfold round_pos. rewrite !Qred_correct.
  set (e1 := Z.max (-1074) (flog2 q1 - 52)).
  set (e2 := Z.max (-1074) (flog2 q2 - 52)).
  assert (He : (e1 <= e2)%Z) by lia.
  destruct (Z.eq_dec e1 e2) as [E|E].
  - rewrite <- E. apply Qmult_le_compat_r; [|apply Qlt_le_weak, pow2_pos].
    rewrite <- Zle_Qle. apply round_half_even_mono.
    apply Qmult_le_compat_r; [exact H12|]. apply Qinv_le_0_compat, Qlt_le_weak, pow2_pos.
  - assert (He2 : e2 = (flog2 q2 - 52)%Z) by lia.
    assert (Hup : (round_half_even (q1 / pow2 e1) <= 2 ^ 53)%Z).
    { apply round_half_even_le. apply Qlt_shift_div_r; [apply pow2_pos|].
      rewrite <- pow2_Z by lia. rewrite <- pow2_plus.
      apply Qlt_le_trans with (1 := U1). apply pow2_le. lia. }
    assert (Hlo : (2 ^ 52 <= round_half_even (q2 / pow2 e2))%Z).
    { apply round_half_even_ge. apply Qle_shift_div_l; [apply pow2_pos|].
      rewrite <- pow2_Z by lia. rewrite <- pow2_plus.
      apply Qle_trans with (2 := L2). apply pow2_le. lia. }
    apply Qle_trans with (inject_Z (2 ^ 53) * pow2 e1).
    + apply Qmult_le_compat_r; [|apply Qlt_le_weak, pow2_pos]. rewrite <- Zle_Qle. exact Hup.
    + apply Qle_trans with (inject_Z (2 ^ 52) * pow2 e2).
      * rewrite <- !pow2_Z by lia. rewrite <- !pow2_plus. apply pow2_le. lia.
      * apply Qmult_le_compat_r; [|apply Qlt_le_weak, pow2_pos]. rewrite <- Zle_Qle. exact Hlo.
Qed.

Lemma round_double_mono (x y : Q) : x <= y -> round_double x <= round_double y.
Proof.
  intros H. unfold round_double.
  destruct (Qcompare_spec x 0) as [Ex|Ex|Ex]; destruct (Qcompare_spec y 0) as [Ey|Ey|Ey];
    try lra.
  all: try (apply Qopp_le_compat; apply round_pos_mono; lra).
  all: try (apply round_pos_mono; lra).
  all: try (pose proof (round_pos_nonneg y ltac:(lra)); lra).
  all: try (pose proof (round_pos_nonneg (- x) ltac:(lra)); lra).
  all: pose proof (round_pos_nonneg (- x) ltac:(lra));
       pose proof (round_pos_nonneg y ltac:(lra)); lra.
Qed.

Lemma round_double_nonneg (x : Q) : 0 <= x -> 0 <= round_double x.
Proof.
  intros H. apply (round_double_mono 0 x) in H. exact H.
Qed.

Lemma fl_add_mono (a b c d : Q) : a <= b -> c <= d -> fl_add a c <= fl_add b d.
Proof. intros H1 H2. apply round_double_mono. lra. Qed.

Lemma fl_mul_mono (c w w' : Q) : 0 <= c -> w <= w' -> fl_mul c w <= fl_mul c w'.
Proof.
  intros Hc Hw. apply round_double_mono.
  rewrite !(Qmult_comm c). apply Qmult_le_compat_r; assumption.
Qed.

Lemma fl_count_nonneg (n : nat) : 0 <= fl_mul (fl_of_nat n) 2.
Proof.
  apply round_double_nonneg. apply Qmult_le_0_compat; [|lra].
  apply round_double_nonneg. unfold Qle. simpl. lia.
Qed.

(** ** Scoring in float arithmetic: monotone in the weights *)

Lemma fold_fl_mono (b : string -> bool) (d1 d2 : Q) (ws : list string) :
  d1 <= d2 ->
  forall s1 s2, s1 <= s2 ->
  fold_left (fun score word => if b word then fl_add score d1 else score) ws s1
  <= fold_left (fun score word => if b word then fl_add score d2 else score) ws s2.
Proof.
  intros Hd. induction ws as [|x ws IH]; intros s1 s2 Hs; cbn [fold_left]; [exact Hs|].
  apply IH. destruct (b x); [apply fl_add_mono|]; assumption.
Qed.

Ltac fl_mono :=
  repeat first
    [ apply fl_add_mono
    | apply fl_mul_mono; [first [apply fl_count_nonneg | lra] | ]
    | assumption
    | apply Qle_refl ].

Lemma score_step_fl_mono (t c g k : string) (s1 s2 w1 w2 : Q) :
  s1 <= s2 -> w1 <= w2 ->
  score_step_fl t c g s1 (mkWkw k w1) <= score_step_fl t c g s2 (mkWkw k w2).
Proof.
  intros Hs Hw. unfold score_step_fl. cbn [keyword weight]. cbv zeta.
  apply fold_fl_mono; [fl_mono|].
  case_ifs; fl_mono.
Qed.

Definition same_keyword_le (a b : wkw) : Prop := keyword a = keyword b /\ weight a <= weight b.

Lemma fold_score_fl_mono (t c g : string) (kws kws' : list wkw) :
  Forall2 same_keyword_le kws kws' ->
  forall s1 s2, s1 <= s2 ->
  fold_left (score_step_fl t c g) kws s1 <= fold_left (score_step_fl t c g) kws' s2.
Proof.
  induction 1 as [|[k w] [k' w'] l l' [Hk Hw] _ IH]; intros s1 s2 Hs; cbn [fold_left]; [exact Hs|].
  apply IH. cbn [keyword weight] in Hk, Hw. subst k'. apply score_step_fl_mono; assumption.
Qed.

Lemma Forall2_same_keyword_refl (l : list wkw) : Forall2 same_keyword_le l l.
Proof. induction l; constructor; [split; [reflexivity | apply Qle_refl] | assumption]. Qed.

Lemma set_weight_le (kws : list wkw) (i : nat) (kw : wkw) (w' : Q) :
  nth_error kws i = Some kw -> weight kw <= w' ->
  Forall2 same_keyword_le kws (set_weight i w' kws).
Proof.
  intros Hnth Hw. destruct (nth_error_split_at _ _ _ Hnth) as [Hsplit Hskip].
  unfold set_weight. rewrite Hskip. rewrite Hsplit at 1. cbn [firstn map].
  apply Forall2_app; [apply Forall2_same_keyword_refl|].
  constructor; [split; [reflexivity | exact Hw] | apply Forall2_same_keyword_refl].
Qed.

(** C6 (amended): with Python's float arithmetic, raising the weight of
    one entry of the keyword list, on the same page, never lowers the
    page's score. (Rounding may leave it unchanged although the entry
    contributes: see the counterexample below.) *)
Theorem score_weight_monotone (page : dict) (kws : list wkw) (i : nat) (kw : wkw) (w' s : Q) :
  nth_error kws i = Some kw ->
  weight kw <= w' ->
  calculate_match_score_fl page kws = Some s ->
  exists s', calculate_match_score_fl page (set_weight i w' kws) = Some s' /\ s <= s'.
Proof.
  intros Hnth Hw Hs. unfold calculate_match_score_fl in *.
  destruct (get_lower page "title"), (get_lower page "content"), (categories_str page);
    try discriminate.
  injection Hs as <-. eexists. split; [reflexivity|].
  apply fold_score_fl_mono; [apply (set_weight_le _ _ _ _ Hnth Hw) | apply Qle_refl].
Qed.

Lemma score_weight_monotone_witness :
  exists s',
    calculate_match_score_fl
      [("title", JStr "Docker Setup"); ("content", JStr "docker container deployment guide");
       ("categories", JArr [JStr "DevOps"])] (set_weight 0 10 [mkWkw "docker" 5]) = Some s'
    /\ 275 <= s'.
Proof.
  apply (score_weight_monotone
           [("title", JStr "Docker Setup"); ("content", JStr "docker container deployment guide");
            ("categories", JArr [JStr "DevOps"])] [mkWkw "docker" 5] 0 (mkWkw "docker" 5) 10 275).
  - reflexivity.
  - vm_compute. discriminate.
  - vm_compute. reflexivity.
Defined.

(** C6, counterexample to the strict increase: categories ['ab cd'] and
    keywords [ab:10, cd:1] score 150 + 15 = 165; raising cd's weight to the
    next double, 1 + 2 ^ -52, still gives 165.0 (15.000000000000004 is
    absorbed when added to 150), although cd alone scores 15. *)
Lemma score_weight_monotone_counterexample :
  ~ (forall (page : dict) (kws : list wkw) (i : nat) (kw : wkw) (w' s : Q),
       nth_error kws i = Some kw ->
       weight kw < w' ->
       calculate_match_score_fl page kws = Some s ->
       exists s' contrib,
         calculate_match_score_fl page (set_weight i w' kws) = Some s'
         /\ calculate_match_score_fl page [kw] = Some contrib
         /\ (s < s' \/ (s' == s /\ contrib == 0))).
Proof.
  intros H.
  destruct (H [("categories", JArr [JStr "ab cd"])] [mkWkw "ab" 10; mkWkw "cd" 1] 1%nat
              (mkWkw "cd" 1) (4503599627370497 # 4503599627370496) 165)
    as [s' [contrib [E1 [E2 Hd]]]].
  - reflexivity.
  - vm_compute. reflexivity.
  - vm_compute. reflexivity.
  - vm_compute in E1, E2. injection E1 as <-. injection E2 as <-.
    vm_compute in Hd. destruct Hd as [Hd | [_ Hd]]; discriminate.
Qed.

(** ** Scoring a scraped page *)

Lemma strs_of_map (l : list string) : strs_of (map JStr l) = Some l.
Proof. induction l as [|x l IH]; simpl; [reflexivity | now rewrite IH]. Qed.

Lemma extract_page_fields (sp : soup) (url : string) (now : Q) (d : dict) :
  extract_page_data sp url now = Some d ->
  exists t g, page_fields d = Some (t, "", g).
Proof.
  unfold extract_page_data. destruct (sp_raises sp); [discriminate|].
  intros H. injection H as <-.
  unfold page_fields, get_lower, categories_str. simpl.
  rewrite strs_of_map. eauto.
Qed.

Lemma py_count_empty (k : string) : k <> "" -> py_count k "" = 0%nat.
Proof.
  intros Hk. unfold py_count. destruct k as [|c k]; [contradiction|]. reflexivity.
Qed.

Lemma title_cat_step_shift (t g : string) (s : Q) (kw : wkw) :
  title_cat_step t g s kw == s + title_cat_step t g 0 kw.
Proof.
  unfold title_cat_step. rewrite !fold_cond. case_ifs; ring.
Qed.

Lemma score_step_no_content (t g : string) (s : Q) (kw : wkw) :
  keyword kw <> "" -> score_step t "" g s kw == title_cat_step t g s kw.
Proof.
  intros Hk. unfold score_step, title_cat_step.
  rewrite (py_count_empty _ Hk). simpl py_split. simpl firstn. simpl py_join.
  rewrite !fold_cond.
  replace (wb_search (keyword kw) "") with false
    by (unfold wb_search; simpl; destruct (startswith (keyword kw) ""); reflexivity).
  case_ifs; unfold inject_Z; simpl Z.of_nat; ring.
Qed.

Lemma score_fields_no_content (t g : string) (kws : list wkw) (s1 s2 : Q) :
  Forall (fun kw => keyword kw <> "") kws -> s1 == s2 ->
  fold_left (score_step t "" g) kws s1 == fold_left (title_cat_step t g) kws s2.
Proof.
  revert s1 s2. induction kws as [|kw kws IH]; intros s1 s2 Hall Hs; simpl; [exact Hs|].
  inversion Hall as [|? ? Hk Hks]; subst.
  apply IH; [exact Hks|].
  rewrite score_step_shift, title_cat_step_shift, Hs, (score_step_no_content _ _ _ _ Hk).
  rewrite (title_cat_step_shift t g 0). ring.
Qed.

(** C2: a page dict produced by [extract_page_data] has no ['content'] key,
    so [calculate_match_score] evaluates the content terms over the empty
    string; for keyword lists whose terms are non-empty (all that
    [generate_keywords] produces) the score is then exactly the
    title-and-category score. *)
Theorem extracted_page_content_empty (sp : soup) (url : string) (now : Q) (d : dict)
    (kws : list wkw) :
  extract_page_data sp url now = Some d ->
  exists t g,
    page_fields d = Some (t, "", g)
    /\ calculate_match_score d kws = Some (score_fields t "" g kws)
    /\ (Forall (fun kw => keyword kw <> "") kws ->
        score_fields t "" g kws == title_cat_score t g kws).
Proof.
  intros H. destruct (extract_page_fields _ _ _ _ H) as [t [g Hf]].
  exists t, g. split; [exact Hf|]. split.
  - rewrite calculate_match_score_fields, Hf. reflexivity.
  - intros Hall. apply score_fields_no_content; [exact Hall | reflexivity].
Qed.

Lemma extracted_page_content_empty_witness :
  let sp := mkSoup (Some "Docker Setup") None (Some "docker container guide")
                   ["DevOps"] [] None false in
  exists t g,
    page_fields [("title", JStr "Docker Setup"); ("url", JStr "u");
                 ("text_content", JStr "docker container guide");
                 ("categories", JArr [JStr "DevOps"]); ("internal_links", JArr []);
                 ("last_modified", JNull); ("scraped_at", JNum 0);
                 ("word_count", JNum 3)] = Some (t, "", g)
    /\ calculate_match_score
         [("title", JStr "Docker Setup"); ("url", JStr "u");
          ("text_content", JStr "docker container guide");
          ("categories", JArr [JStr "DevOps"]); ("internal_links", JArr []);
          ("last_modified", JNull); ("scraped_at", JNum 0);
          ("word_count", JNum 3)] [mkWkw "docker" 10]
       = Some (score_fields t "" g [mkWkw "docker" 10])
    /\ (Forall (fun kw => keyword kw <> "") [mkWkw "docker" 10] ->
        score_fields t "" g [mkWkw "docker" 10] == title_cat_score t g [mkWkw "docker" 10]).
Proof.
  intros sp. apply (extracted_page_content_empty sp "u" 0). vm_compute. reflexivity.
Defined.

(** C2, as stated for every keyword list, fails for the empty keyword:
    [''.count('')] is 1, so the content term adds [2 * weight]. *)
Lemma extracted_page_content_empty_counterexample :
  ~ (forall sp url now d kws,
       extract_page_data sp url now = Some d ->
       exists t g s,
         page_fields d = Some (t, "", g)
         /\ calculate_match_score d kws = Some s
         /\ s == title_cat_score t g kws).
Proof.
  intros H.
  destruct (H (mkSoup (Some "Home") None None [] [] None false) "u" 0
              [("title", JStr "Home"); ("url", JStr "u"); ("text_content", JStr "");
               ("categories", JArr []); ("internal_links", JArr []);
               ("last_modified", JNull); ("scraped_at", JNum 0); ("word_count", JNum 0)]
              [mkWkw "" 1] eq_refl) as [t [g [s [Hf [Hc Hq]]]]].
  vm_compute in Hf. injection Hf as <- <-.
  vm_compute in Hc. injection Hc as <-.
  vm_compute in Hq. discriminate.
Qed.

(** ** Substrings *)

Lemma startswith_iff (k s : string) : startswith k s = true <-> exists suf, s = k ++ suf.
Proof.
  revert s. induction k as [|a k IH]; intros s; simpl.
  - split; [eauto | reflexivity].
  - destruct s as [|b s].
    + split; [discriminate | intros [suf H]; discriminate].
    + rewrite andb_true_iff, IH. split.
      * intros [Hab [suf ->]]. apply Ascii.eqb_eq in Hab. subst. eauto.
      * intros [suf H]. injection H as -> ->. split; [apply Ascii.eqb_refl | eauto].
Qed.

Lemma py_in_iff (k s : string) : py_in k s = true <-> exists pre suf, s = pre ++ k ++ suf.
Proof.
  induction s as [|c s IH]; simpl py_in.
  - rewrite orb_false_r, startswith_iff. split.
    + intros [suf H]. exists "", suf. exact H.
    + intros [pre [suf H]]. destruct pre; [|discriminate]. eauto.
  - rewrite orb_true_iff, startswith_iff, IH. split.
    + intros [[suf H] | [pre [suf H]]].
      * exists "", suf. exact H.
      * exists (String c pre), suf. simpl. now rewrite H.
    + intros [pre [suf H]]. destruct pre as [|d pre].
      * left. eauto.
      * right. injection H as -> H. eauto.
Qed.

Lemma py_in_refl (k : string) : py_in k k = true.
Proof. apply py_in_iff. exists "", "". simpl. now rewrite str_append_nil. Qed.

Lemma py_in_trans (a b c : string) :
  py_in a b = true -> py_in b c = true -> py_in a c = true.
Proof.
  rewrite !py_in_iff. intros [p1 [s1 ->]] [p2 [s2 ->]].
  exists (p2 ++ p1), (s1 ++ s2).
  now rewrite !str_append_assoc.
Qed.

Lemma wb_go_in (prev : option ascii) (k s : string) : wb_go prev k s = true -> py_in k s = true.
Proof.
  revert prev. induction s as [|c s IH]; intros prev; simpl.
  - rewrite orb_false_r. intros H. apply andb_true_iff in H as [H _].
    apply andb_true_iff in H as [_ H]. simpl. now rewrite H.
  - intros H. apply orb_true_iff in H as [H | H].
    + apply andb_true_iff in H as [H _]. apply andb_true_iff in H as [_ H].
      simpl. now rewrite H.
    + simpl. rewrite (IH _ H). apply orb_true_r.
Qed.

Lemma wb_search_in (k s : string) : wb_search k s = true -> py_in k s = true.
Proof. apply wb_go_in. Qed.

Lemma split_go_sub (acc s w : string) :
  In w (split_go acc s) -> exists pre suf, acc ++ s = pre ++ w ++ suf.
Proof.
  revert acc. induction s as [|c s IH]; intros acc; simpl.
  - destruct (String.eqb acc "") eqn:E; simpl; [contradiction|].
    intros [<- | []]. exists "", "". simpl. reflexivity.
  - destruct (py_isspace c).
    + destruct (String.eqb acc "") eqn:E.
      * apply String.eqb_eq in E. subst acc. intros Hin.
        destruct (IH "" Hin) as [pre [suf H]]. simpl in H.
        exists (String c pre), suf. simpl. now rewrite H.
      * intros [<- | Hin]; [exists "", (String c s); reflexivity|].
        destruct (IH "" Hin) as [pre [suf H]]. simpl in H.
        exists (acc ++ String c pre), suf. rewrite H, str_append_assoc. reflexivity.
    + intros Hin. destruct (IH _ Hin) as [pre [suf H]].
      exists pre, suf. rewrite <- H, str_append_assoc. reflexivity.
Qed.

Lemma split_word_in (k s w : string) :
  In w (py_split s) -> py_in k w = true -> py_in k s = true.
Proof.
  intros Hin Hk. apply (py_in_trans _ w); [exact Hk|].
  apply py_in_iff. exact (split_go_sub "" s w Hin).
Qed.

Lemma filter_all_false {A : Type} (f : A -> bool) (l : list A) :
  (forall x, In x l -> f x = false) -> filter f l = [].
Proof.
  induction l as [|x l IH]; simpl; intros H; [reflexivity|].
  rewrite (H x (or_introl eq_refl)). apply IH. intros y Hy. apply H. now right.
Qed.

(** ** Exact-title dominance *)

Lemma content_only_score (t2 c2 g2 k : string) (w : Q) :
  py_in k t2 = false -> py_in k g2 = false ->
  exists b : bool,
    score_fields t2 c2 g2 [mkWkw k w]
    == inject_Z (Z.of_nat (py_count k c2)) * 2 * w + (if b then 5 * w else 0).
Proof.
  intros Ht Hg. exists (wb_search k (py_join " " (firstn 200 (py_split c2)))).
  unfold score_fields. cbn [fold_left]. unfold score_step. cbv zeta. cbn [keyword weight].
  rewrite fold_cond.
  rewrite (filter_all_false _ (py_split t2)).
  2:{ intros word Hw. destruct (py_in k word) eqn:E; [|reflexivity].
      rewrite (split_word_in _ _ _ Hw E) in Ht. discriminate. }
  replace (String.eqb k t2) with false.
  2:{ symmetry. apply String.eqb_neq. intros ->. now rewrite py_in_refl in Ht. }
  replace (wb_search k t2) with false.
  2:{ symmetry. destruct (wb_search k t2) eqn:E; [|reflexivity].
      rewrite (wb_search_in _ _ E) in Ht. discriminate. }
  rewrite Ht, Hg.
  destruct (wb_search k (py_join " " (firstn 200 (py_split c2)))); simpl; ring.
Qed.

(** C5 (amended): for a keyword equal to page 1's lowercased title and a
    positive weight, the exact-title and whole-word-in-title terms of page 1
    exceed the whole score of a page 2 where the keyword occurs only in the
    content, provided it occurs there at most 22 times, or at most 34 times
    when the title begins and ends with a word character (so that the
    whole-word term fires). *)
Theorem exact_title_dominance (page1 page2 : dict) (t1 c1 g1 t2 c2 g2 : string) (w : Q) :
  page_fields page1 = Some (t1, c1, g1) ->
  page_fields page2 = Some (t2, c2, g2) ->
  0 < w ->
  py_in t1 c2 = true -> py_in t1 t2 = false -> py_in t1 g2 = false ->
  ((py_count t1 c2 <= 22)%nat \/ (wb_search t1 t1 = true /\ (py_count t1 c2 <= 34)%nat)) ->
  score_fields t2 c2 g2 [mkWkw t1 w] < title_terms (mkWkw t1 w) t1.
Proof.
  intros _ _ Hw _ Ht Hg Hn.
  destruct (content_only_score t2 c2 g2 t1 w Ht Hg) as [b Hb]. rewrite Hb.
  unfold title_terms. simpl keyword. simpl weight. rewrite String.eqb_refl.
  set (n := inject_Z (Z.of_nat (py_count t1 c2))).
  assert (Hn0 : 0 <= n) by apply Qnat_nonneg.
  destruct Hn as [Hn | [Hwb Hn]].
  - assert (Hq : n <= 22).
    { unfold n, Qle. simpl. lia. }
    assert (Hm : 0 < (45 - 2 * n) * w) by (apply Qmult_lt_0_compat; lra).
    assert (Hp : 0 <= n * w) by (apply Qmult_le_0_compat; lra).
    destruct b, (wb_search t1 t1); lra.
  - assert (Hq : n <= 34).
    { unfold n, Qle. simpl. lia. }
    rewrite Hwb.
    assert (Hm : 0 < (70 - 2 * n) * w) by (apply Qmult_lt_0_compat; lra).
    destruct b; lra.
Qed.

Lemma exact_title_dominance_witness :
  score_fields "other" "docker docker docker" "" [mkWkw "docker" 1]
  < title_terms (mkWkw "docker" 1) "docker".
Proof.
  apply (exact_title_dominance [("title", JStr "Docker")]
           [("title", JStr "Other"); ("content", JStr "docker docker docker")]
           "docker" "" "" "other" "docker docker docker" "" 1);
    try (vm_compute; reflexivity).
  left. vm_compute. repeat constructor.
Defined.

Lemma exact_title_dominance_counterexample :
  ~ (forall (page1 page2 : dict) (t1 c1 g1 t2 c2 g2 : string) (w : Q),
       page_fields page1 = Some (t1, c1, g1) ->
       page_fields page2 = Some (t2, c2, g2) ->
       1 <= w <= 10 ->
       py_in t1 c2 = true -> py_in t1 t2 = false -> py_in t1 g2 = false ->
       score_fields t2 c2 g2 [mkWkw t1 w] < title_terms (mkWkw t1 w) t1).
Proof.
  intros H.
  assert (Hc := H [("title", JStr "Docker")]
                  [("title", JStr "Other"); ("content", JStr "docker docker docker docker docker docker docker docker docker docker docker docker docker docker docker docker docker docker docker docker docker docker docker docker docker docker docker docker docker docker docker docker docker docker docker docker docker docker docker docker")]
                  "docker" "" "" "other" "docker docker docker docker docker docker docker docker docker docker docker docker docker docker docker docker docker docker docker docker docker docker docker docker docker docker docker docker docker docker docker docker docker docker docker docker docker docker docker docker" "" 1
                  ltac:(vm_compute; reflexivity) ltac:(vm_compute; reflexivity)
                  ltac:(split; vm_compute; discriminate)
                  ltac:(vm_compute; reflexivity) ltac:(vm_compute; reflexivity)
                  ltac:(vm_compute; reflexivity)).
  vm_compute in Hc. discriminate Hc.
Qed.

(** ** The duplicate-suppression invariant of the crawler *)

Lemma extract_url (sp : soup) (url : string) (now : Q) (d : dict) :
  extract_page_data sp url now = Some d -> page_url d = Some url.
Proof.
  unfold extract_page_data. destruct (sp_raises sp); [discriminate|].
  intros H. injection H as <-. reflexivity.
Qed.

Lemma set_mem_false (u : string) (s : list string) : set_mem u s = false -> ~ In u s.
Proof.
  unfold set_mem. intros H Hin.
  assert (existsb (String.eqb u) s = true) as E.
  { apply existsb_exists. exists u. split; [exact Hin | apply String.eqb_refl]. }
  congruence.
Qed.

Lemma NoDup_snoc {A : Type} (l : list A) (x : A) :
  NoDup l -> ~ In x l -> NoDup (l ++ [x])%list.
Proof.
  induction 1 as [|a l Ha Hl IH]; intros Hx; simpl.
  - constructor; [intros [] | constructor].
  - constructor.
    + rewrite in_app_iff. intros [H | [H | []]]; [contradiction|].
      apply Hx. left. symmetry. exact H.
    + apply IH. intros H. apply Hx. now right.
Qed.

Lemma url_inv_add_url (urls : list string) (data : list dict) (u : string) :
  url_inv urls data -> ~ In u urls -> url_inv (urls ++ [u])%list data.
Proof.
  intros [Hn [us [Hm [Hu Hi]]]] Hx. split; [now apply NoDup_snoc|].
  exists us. split; [exact Hm|]. split; [exact Hu|].
  apply incl_appl. exact Hi.
Qed.

Lemma url_inv_add_page (urls : list string) (data : list dict) (u : string) (p : dict) :
  url_inv urls data -> ~ In u urls -> page_url p = Some u ->
  url_inv (urls ++ [u])%list (data ++ [p])%list.
Proof.
  intros [Hn [us [Hm [Hu Hi]]]] Hx Hp. split; [now apply NoDup_snoc|].
  exists (us ++ [u])%list. split; [|split].
  - rewrite !map_app, Hm. cbn [map]. rewrite Hp. reflexivity.
  - apply NoDup_snoc; [exact Hu|]. intros H. apply Hx, Hi, H.
  - apply incl_app; [apply incl_appl, Hi | apply incl_appr, incl_refl].
Qed.

Lemma get_random_page_inv (now : Q) (st : scraper) (o : fetch_outcome)
    (results : list dict) (st' : scraper) (r : option dict) :
  url_inv (scraped_pages st) (scraped_data st ++ results)%list ->
  get_random_page now st o = (st', r) ->
  scraped_data st' = scraped_data st /\
  url_inv (scraped_pages st')
    (scraped_data st ++ match r with Some p => results ++ [p] | None => results end)%list.
Proof.
  intros Hinv. unfold get_random_page. destruct o as [|status u body].
  - intros H. injection H as <- <-. now split.
  - destruct (negb (status =? 200)%Z).
    { intros H. injection H as <- <-. now split. }
    destruct (set_mem u (scraped_pages st)) eqn:Em.
    { intros H. injection H as <- <-. now split. }
    pose proof (set_mem_false _ _ Em) as Hni.
    unfold set_add. rewrite Em.
    destruct body as [|sp].
    + intros H. injection H as <- <-. split; [reflexivity|].
      now apply url_inv_add_url.
    + destruct (extract_page_data sp u now) as [d|] eqn:Ed;
        intros H; injection H as <- <-; (split; [reflexivity|]); cbn [scraped_pages].
      * rewrite app_assoc. apply url_inv_add_page; [exact Hinv | exact Hni |].
        exact (extract_url _ _ _ _ Ed).
      * now apply url_inv_add_url.
Qed.

Lemma run_batch_inv (now : Q) (os : list fetch_outcome) :
  forall st results tr st' res' tr',
  url_inv (scraped_pages st) (scraped_data st ++ results)%list ->
  run_batch now st os results tr = (st', res', tr') ->
  scraped_data st' = scraped_data st /\
  url_inv (scraped_pages st') (scraped_data st ++ res')%list /\
  (forall e, In e tr' -> In e tr \/ e = EFetch).
Proof.
  induction os as [|o os IH]; intros st results tr st' res' tr' Hinv H; cbn [run_batch] in H.
  - injection H as <- <- <-. auto.
  - destruct (get_random_page now st o) as [st1 r] eqn:Eg.
    destruct (get_random_page_inv _ _ _ results _ _ Hinv Eg) as [Hd Hi].
    rewrite <- Hd in Hi.
    destruct (IH _ _ _ _ _ _ Hi H) as [Hd' [Hi' Ht]].
    rewrite Hd' in *. rewrite Hd in *. split; [reflexivity|]. split; [exact Hi'|].
    intros e He. destruct (Ht e He) as [He' | He']; [|now right].
    apply in_app_iff in He' as [He' | [He' | []]]; [now left | now right].
Qed.

Lemma merge_batch_inv (now : Q) (st : scraper) (draw : nat -> fetch_outcome) (n : nat)
    (tr : list event) (st' : scraper) (tr' : list event) :
  url_inv (scraped_pages st) (scraped_data st) ->
  (forall d u, In (ECheckpoint d u) tr -> url_inv u d) ->
  merge_batch now st draw n tr = (st', tr') ->
  url_inv (scraped_pages st') (scraped_data st') /\
  (forall d u, In (ECheckpoint d u) tr' -> url_inv u d).
Proof.
  intros Hinv Hck. unfold merge_batch.
  destruct (run_batch now st (map draw (seq 0 n)) [] tr) as [[st1 res] tr1] eqn:E.
  apply run_batch_inv in E; [|rewrite app_nil_r; exact Hinv].
  destruct E as [Hd [Hi Ht]]. rewrite Hd.
  assert (Hck1 : forall d u, In (ECheckpoint d u) tr1 -> url_inv u d).
  { intros d u Hin. destruct (Ht _ Hin) as [H | H]; [exact (Hck _ _ H) | discriminate]. }
  destruct (Nat.eqb _ 0); intros H; injection H as <- <-; cbn [scraped_pages scraped_data];
    (split; [exact Hi|]); [|exact Hck1].
  intros d u Hin. apply in_app_iff in Hin as [Hin | [Heq | []]]; [exact (Hck1 _ _ Hin)|].
  unfold save_checkpoint in Heq. cbn [scraped_pages scraped_data] in Heq.
  injection Heq as <- <-. exact Hi.
Qed.

Lemma url_inv_app_l (urls : list string) (d1 d2 : list dict) :
  url_inv urls (d1 ++ d2)%list -> url_inv urls d1.
Proof.
  intros [Hn [us [Hm [Hu Hi]]]]. split; [exact Hn|].
  exists (firstn (List.length d1) us). split; [|split].
  - rewrite <- firstn_map, <- Hm, map_app, firstn_app, length_map, Nat.sub_diag, firstn_O,
      app_nil_r.
    rewrite <- (length_map page_url d1) at 1. symmetry. apply firstn_all.
  - rewrite <- (firstn_skipn (List.length d1) us) in Hu. exact (NoDup_app_remove_r _ _ Hu).
  - intros u Hin. apply Hi. exact (in_firstn _ _ _ Hin).
Qed.

Lemma crawl_loop_inv (now : Q) (target : Z) (mc : nat) (iter : nat -> iter_event) (fuel : nat) :
  forall i st tr,
  url_inv (scraped_pages st) (scraped_data st) ->
  (forall d u, In (ECheckpoint d u) tr -> url_inv u d) ->
  match crawl_loop fuel now target mc iter i st tr with
  | LDone st' tr' | LRaised _ st' tr' | LFuel st' tr' =>
      url_inv (scraped_pages st') (scraped_data st') /\
      (forall d u, In (ECheckpoint d u) tr' -> url_inv u d)
  end.
Proof.
  induction fuel as [|fuel IH]; intros i st tr Hinv Hck; cbn [crawl_loop].
  - destruct (negb _); auto.
  - destruct (negb _); [auto|].
    destruct (iter i) as [draw | draw k e | draw e].
    + destruct (merge_batch _ _ _ _ _) as [st' tr'] eqn:Em.
      destruct (merge_batch_inv _ _ _ _ _ _ _ Hinv Hck Em) as [Hi Hc].
      exact (IH _ _ _ Hi Hc).
    + destruct (run_batch _ _ _ _ _) as [[st' res] tr'] eqn:E.
      apply run_batch_inv in E; [|rewrite app_nil_r; exact Hinv].
      destruct E as [Hd [Hi Ht]]. split.
      * rewrite Hd. exact (url_inv_app_l _ _ _ Hi).
      * intros d u Hin. destruct (Ht _ Hin) as [H | H]; [exact (Hck _ _ H) | discriminate].
    + destruct (merge_batch _ _ _ _ _) as [st' tr'] eqn:Em.
      exact (merge_batch_inv _ _ _ _ _ _ _ Hinv Hck Em).
Qed.

Lemma url_inv_length (urls : list string) (data : list dict) :
  url_inv urls data -> (List.length data <= List.length urls)%nat.
Proof.
  intros [_ [us [Hm [Hu Hi]]]].
  rewrite <- (length_map page_url data), Hm, length_map.
  exact (NoDup_incl_length Hu Hi).
Qed.

(** C1 (amended): if the state after loading the checkpoint satisfies the
    invariant, then every checkpoint written by [scrape_pages] records a set
    of URLs without duplicates that contains the URL of every saved page,
    the saved pages carry pairwise distinct URLs, and so there are at least
    as many URLs as pages (URLs whose fetch or parse failed stay in the set
    without a page). *)
Theorem checkpoint_url_invariant (fuel : nat) (now : Q) (mc : nat)
    (iter : nat -> iter_event) (ck : option ckpt_file) (st0 : scraper) (target : Z) :
  url_inv (scraped_pages (load_checkpoint ck st0)) (scraped_data (load_checkpoint ck st0)) ->
  forall d u,
    In (ECheckpoint d u) (sp_trace (scrape_pages fuel now mc iter ck st0 target)) ->
    url_inv u d /\ (List.length d <= List.length u)%nat.
Proof.
  intros Hinv d u Hin.
  assert (Hu : url_inv u d); [|split; [exact Hu | exact (url_inv_length _ _ Hu)]].
  unfold scrape_pages in Hin.
  destruct (_ <=? 0)%Z; [destruct Hin|].
  pose proof (crawl_loop_inv now target mc iter fuel 0 (load_checkpoint ck st0) []
                Hinv (fun d u (H : In _ []) => match H with end)) as Hl.
  destruct (crawl_loop fuel now target mc iter 0 (load_checkpoint ck st0) [])
    as [st tr | e st tr | st tr]; destruct Hl as [Hi Hc].
  - cbn [sp_trace] in Hin. apply in_app_iff in Hin as [Hin | [Heq | []]]; [exact (Hc _ _ Hin)|].
    injection Heq as <- <-. exact Hi.
  - destruct e; cbn [sp_trace] in Hin; [|exact (Hc _ _ Hin)].
    apply in_app_iff in Hin as [Hin | [Heq | []]]; [exact (Hc _ _ Hin)|].
    injection Heq as <- <-. exact Hi.
  - exact (Hc _ _ Hin).
Qed.

Lemma checkpoint_url_invariant_witness :
  In (ECheckpoint [] ["u"])
     (sp_trace (scrape_pages 1 0 20
        (fun _ => IterBatch (fun _ => FResponse 200 "u" BodyRaises))
        None (mkScraper [] []) 1))
  /\ url_inv ["u"] [] /\ (List.length (@nil dict) <= List.length ["u"])%nat.
Proof.
  assert (Hin : In (ECheckpoint [] ["u"])
                   (sp_trace (scrape_pages 1 0 20
                      (fun _ => IterBatch (fun _ => FResponse 200 "u" BodyRaises))
                      None (mkScraper [] []) 1))).
  { vm_compute. right. left. reflexivity. }
  split; [exact Hin|].
  refine (checkpoint_url_invariant 1 0 20
            (fun _ => IterBatch (fun _ => FResponse 200 "u" BodyRaises))
            None (mkScraper [] []) 1 _ [] ["u"] Hin).
  split; [constructor|]. exists []. split; [reflexivity|]. split; [constructor|].
  intros x [].
Defined.

Lemma checkpoint_url_invariant_counterexample :
  ~ (forall (fuel : nat) (now : Q) (mc : nat) (iter : nat -> iter_event)
            (ck : option ckpt_file) (st0 : scraper) (target : Z) d u,
       url_inv (scraped_pages (load_checkpoint ck st0)) (scraped_data (load_checkpoint ck st0)) ->
       In (ECheckpoint d u) (sp_trace (scrape_pages fuel now mc iter ck st0 target)) ->
       List.length u = List.length d).
Proof.
  intros H.
  assert (Hc := H 1%nat 0 20%nat (fun _ => IterBatch (fun _ => FResponse 200 "u" BodyRaises))
                  None (mkScraper [] []) 1%Z [] ["u"]).
  assert (Hl : url_inv [] []).
  { split; [constructor|]. exists []. split; [reflexivity|]. split; [constructor|].
    intros x []. }
  specialize (Hc Hl).
  assert (Hin : In (ECheckpoint [] ["u"])
                   (sp_trace (scrape_pages 1 0 20
                      (fun _ => IterBatch (fun _ => FResponse 200 "u" BodyRaises))
                      None (mkScraper [] []) 1))).
  { vm_compute. right. left. reflexivity. }
  specialize (Hc Hin). discriminate Hc.
Qed.

(** ** The final persists of a run *)







(* ------------------------------------------------------------------ *)
(** ** Further properties of the scorer *)

Lemma count_go_absent (fuel : nat) (k s : string) :
  py_in k s = false -> count_go fuel k s = 0%nat.
Proof.
  revert fuel. induction s as [|c s IH]; intros [|f] H; simpl in *; try reflexivity.
  - rewrite orb_false_r in H. now rewrite H.
  - apply orb_false_iff in H as [H1 H2]. rewrite H1. exact (IH f H2).
Qed.

Lemma py_count_absent (k s : string) : py_in k s = false -> py_count k s = 0%nat.
Proof.
  intros H. unfold py_count. destruct (String.eqb k "") eqn:E.
  - apply String.eqb_eq in E. subst k. destruct s; discriminate.
  - apply count_go_absent, H.
Qed.

Lemma count_go_pos (k s : string) (f : nat) :
  (String.length s < f)%nat -> py_in k s = true -> (1 <= count_go f k s)%nat.
Proof.
  revert f. induction s as [|c s IH]; intros [|f] Hf H; simpl in *; try lia.
  - rewrite orb_false_r in H. rewrite H. lia.
  - destruct (startswith k (String c s)) eqn:E; [lia|].
    simpl in H. apply IH; [lia | exact H].
Qed.

Lemma py_count_pos (k s : string) : py_in k s = true -> (1 <= py_count k s)%nat.
Proof.
  intros H. unfold py_count. destruct (String.eqb k ""); [lia|].
  apply count_go_pos; [lia | exact H].
Qed.

Lemma score_fields_cons (t c g : string) (kw : wkw) (kws : list wkw) :
  score_fields t c g (kw :: kws) == score_step t c g 0 kw + score_fields t c g kws.
Proof.
  change (kw :: kws) with ([kw] ++ kws)%list. rewrite score_fields_app. reflexivity.
Qed.

Lemma score_step_nonneg (t c g : string) (kw : wkw) :
  0 <= weight kw -> 0 <= score_step t c g 0 kw.
Proof.
  destruct kw as [k w]. simpl weight. intros Hw. rewrite score_step_scale.
  apply Qmult_le_0_compat; [exact Hw | apply score_step_coeff_nonneg].
Qed.

Lemma score_fields_nonneg (t c g : string) (kws : list wkw) :
  Forall (fun kw => 0 <= weight kw) kws -> 0 <= score_fields t c g kws.
Proof.
  induction 1 as [|kw kws Hkw _ IH]; [apply Qle_refl|].
  rewrite score_fields_cons. pose proof (score_step_nonneg t c g kw Hkw). lra.
Qed.

Lemma score_step_zero (t c g k : string) (w : Q) :
  py_in k t = false -> py_in k c = false -> py_in k g = false ->
  py_in k (py_join " " (firstn 200 (py_split c))) = false ->
  score_step t c g 0 (mkWkw k w) == 0.
Proof.
  intros Ht Hc Hg Hs. unfold score_step. cbv zeta. cbn [keyword weight].
  rewrite fold_cond.
  rewrite (filter_all_false _ (py_split t)).
  2:{ intros word Hw. destruct (py_in k word) eqn:E; [|reflexivity].
      rewrite (split_word_in _ _ _ Hw E) in Ht. discriminate. }
  replace (String.eqb k t) with false.
  2:{ symmetry. apply String.eqb_neq. intros ->. now rewrite py_in_refl in Ht. }
  replace (wb_search k t) with false.
  2:{ symmetry. destruct (wb_search k t) eqn:E; [|reflexivity].
      rewrite (wb_search_in _ _ E) in Ht. discriminate. }
  replace (wb_search k (py_join " " (firstn 200 (py_split c)))) with false.
  2:{ symmetry. destruct (wb_search _ _) eqn:E; [|reflexivity].
      rewrite (wb_search_in _ _ E) in Hs. discriminate. }
  rewrite Ht, Hg, (py_count_absent _ _ Hc). cbn [List.length Z.of_nat]. ring.
Qed.

Lemma score_step_pos (t c g k : string) (w : Q) :
  0 < w -> (py_in k t = true \/ py_in k c = true \/ py_in k g = true) ->
  0 < score_step t c g 0 (mkWkw k w).
Proof.
  intros Hw Hocc. rewrite score_step_scale.
  apply Qmult_lt_0_compat; [exact Hw|].
  unfold score_step. cbv zeta. cbn [keyword weight]. rewrite fold_cond.
  pose proof (Qnat_nonneg (py_count k c)) as H1.
  pose proof (Qnat_nonneg (List.length (filter (fun word => py_in k word && (3 <? length k)%nat)
                                               (py_split t)))) as H2.
  destruct Hocc as [H | [H | H]].
  - rewrite H. cbv iota. case_ifs; lra.
  - pose proof (py_count_pos _ _ H) as Hn.
    assert (H3 : 1 <= inject_Z (Z.of_nat (py_count k c))).
    { unfold Qle. simpl. lia. }
    case_ifs; lra.
  - rewrite H. cbv iota. case_ifs; lra.
Qed.

Lemma calculate_match_score_some (page : dict) (t c g : string) (kws : list wkw) (s : Q) :
  page_fields page = Some (t, c, g) -> calculate_match_score page kws = Some s ->
  s = score_fields t c g kws.
Proof.
  intros Hp Hs. rewrite calculate_match_score_fields, Hp in Hs. now injection Hs.
Qed.

(** Extra: with non-negative keyword weights, [calculate_match_score]
    never returns a negative score. *)
Theorem match_score_nonneg (page : dict) (kws : list wkw) (s : Q) :
  Forall (fun kw => 0 <= weight kw) kws ->
  calculate_match_score page kws = Some s -> 0 <= s.
Proof.
  intros Hw Hs. rewrite calculate_match_score_fields in Hs.
  destruct (page_fields page) as [[[t c] g]|]; [|discriminate].
  injection Hs as <-. apply score_fields_nonneg, Hw.
Qed.

Lemma match_score_nonneg_witness :
  0 <= 48.
Proof.
  apply (match_score_nonneg [("title", JStr "Docker basics")] [mkWkw "docker" 1]).
  - repeat constructor. unfold Qle. simpl. lia.
  - vm_compute. reflexivity.
Defined.

(** Extra: with positive weights, a page scores above zero when some
    keyword occurs in its lowercased title, content or categories; and
    whatever the weights, it scores zero when no keyword occurs in them nor
    in the first 200 words of the content rejoined with single spaces. *)
Theorem match_score_relevance (page : dict) (t c g : string) (kws : list wkw) (s : Q) :
  page_fields page = Some (t, c, g) ->
  calculate_match_score page kws = Some s ->
  (Forall (fun kw => 0 < weight kw) kws ->
   Exists (fun kw => py_in (keyword kw) t = true \/ py_in (keyword kw) c = true
                     \/ py_in (keyword kw) g = true) kws ->
   0 < s)
  /\ (Forall (fun kw => py_in (keyword kw) t = false /\ py_in (keyword kw) c = false
                        /\ py_in (keyword kw) g = false
                        /\ py_in (keyword kw) (py_join " " (firstn 200 (py_split c))) = false)
             kws ->
      s == 0).
Proof.
  intros Hp Hs. rewrite (calculate_match_score_some _ _ _ _ _ _ Hp Hs). clear s Hs Hp.
  split.
  - intros Hw Hex. induction Hex as [[k w] kws Hk | kw kws _ IH];
      inversion Hw as [|? ? Hw1 Hw2]; subst; rewrite score_fields_cons.
    + pose proof (score_step_pos t c g k w Hw1 Hk).
      assert (0 <= score_fields t c g kws).
      { apply score_fields_nonneg. eapply Forall_impl; [|exact Hw2].
        intros a Ha. apply Qlt_le_weak, Ha. }
      lra.
    + pose proof (score_step_nonneg t c g kw (Qlt_le_weak _ _ Hw1)).
      pose proof (IH Hw2). lra.
  - induction 1 as [|[k w] kws [Ht [Hc [Hg Hs]]] _ IH]; [reflexivity|].
    rewrite score_fields_cons, IH. cbn [keyword] in *.
    rewrite (score_step_zero t c g k w Ht Hc Hg Hs). reflexivity.
Qed.

Lemma match_score_relevance_witness :
  0 < 48.
Proof.
  destruct (match_score_relevance [("title", JStr "Docker basics")] "docker basics" "" ""
              [mkWkw "docker" 1] 48 eq_refl ltac:(vm_compute; reflexivity)) as [H _].
  apply H.
  - repeat constructor.
  - apply Exists_cons_hd. left. vm_compute. reflexivity.
Defined.

(* ------------------------------------------------------------------ *)
(** ** Further properties of keyword extraction *)

Lemma parse_line_bounds (py_float : string -> option Q) (line : string) (kw : wkw) :
  parse_line py_float line = Some kw ->
  1 <= weight kw <= 10 /\ (2 <= String.length (keyword kw))%nat.
Proof.
  unfold parse_line.
  destruct (py_in ":" (py_strip line) && negb (String.eqb (py_strip line) "")); [|discriminate].
  destruct (split_first ":"%char (py_strip line)) as [[k w]|]; [|discriminate].
  destruct (py_float (py_strip w)) as [q|]; [|discriminate].
  destruct ((1 <? length (py_lower (py_strip k)))%nat && Qle_bool 1 q && Qle_bool q 10) eqn:E;
    [|discriminate].
  intros H. injection H as <-. cbn [keyword weight].
  apply andb_true_iff in E as [E E3]. apply andb_true_iff in E as [E1 E2].
  apply Nat.ltb_lt in E1. apply Qle_bool_iff in E2, E3. split; [split|]; auto.
Qed.

Lemma fold_parse_lines_bounds (py_float : string -> option Q) (lines : list string) :
  forall acc kw,
  (forall kw, In kw acc -> 1 <= weight kw <= 10 /\ (2 <= String.length (keyword kw))%nat) ->
  In kw (fold_left
           (fun acc line =>
              match parse_line py_float line with Some kw => (acc ++ [kw])%list | None => acc end)
           lines acc) ->
  1 <= weight kw <= 10 /\ (2 <= String.length (keyword kw))%nat.
Proof.
  induction lines as [|line lines IH]; intros acc kw Hacc Hin; cbn [fold_left] in Hin.
  - exact (Hacc _ Hin).
  - refine (IH _ _ _ Hin). intros kw' Hkw'.
    destruct (parse_line py_float line) as [k|] eqn:E; [|exact (Hacc _ Hkw')].
    apply in_app_iff in Hkw' as [Hkw' | [<- | []]]; [exact (Hacc _ Hkw')|].
    exact (parse_line_bounds _ _ _ E).
Qed.

(** Extra: every entry of the weighted keyword list returned by
    [generate_keywords] has a weight between 1 and 10 and a keyword of at
    least two characters, whatever the AI response and the question. *)
Theorem generate_keywords_bounds (py_float : string -> option Q)
    (user_question ai_response : string) (kw : wkw) :
  In kw (generate_keywords py_float user_question ai_response) ->
  1 <= weight kw <= 10 /\ (2 <= String.length (keyword kw))%nat.
Proof.
  unfold generate_keywords. intros Hin.
  apply (Permutation_in _ (sort_desc_perm weight _)) in Hin.
  set (parsed := fold_left _ (split_char newline ai_response) []) in Hin.
  assert (Hp : forall kw, In kw parsed ->
                 1 <= weight kw <= 10 /\ (2 <= String.length (keyword kw))%nat).
  { intros kw' H'. apply (fold_parse_lines_bounds py_float (split_char newline ai_response) [] kw');
    [intros _ []|exact H']. }
  destruct parsed as [|k0 ks] eqn:Ep; [|exact (Hp _ Hin)].
  apply in_map_iff in Hin as [word [<- Hw]].
  apply filter_In in Hw as [_ Hw]. apply Nat.ltb_lt in Hw.
  cbn [keyword weight]. split; [split; unfold Qle; simpl; lia | lia].
Qed.

Lemma generate_keywords_bounds_witness :
  1 <= weight (mkWkw "docker" 10) <= 10 /\ (2 <= String.length (keyword (mkWkw "docker" 10)))%nat.
Proof.
  apply (generate_keywords_bounds (fun _ => Some 10) "how to use docker" "docker:10").
  vm_compute. left. reflexivity.
Defined.

(* ------------------------------------------------------------------ *)
(** ** Further properties of page extraction *)

Lemma strip_idem (s : string) : py_strip (py_strip s) = py_strip s.
Proof.
  unfold py_strip. rewrite lstrip_rstrip, lstrip_idem, rstrip_idem. reflexivity.
Qed.

Lemma split_go_app_word (w s acc : string) :
  forallb (fun c => negb (py_isspace c)) (list_ascii_of_string w) = true ->
  split_go acc (w ++ s) = split_go (acc ++ w) s.
Proof.
  revert acc. induction w as [|c w IH]; intros acc Hw; simpl in *.
  - now rewrite str_append_nil.
  - apply andb_true_iff in Hw as [Hc Hw]. apply negb_true_iff in Hc. rewrite Hc.
    rewrite IH by exact Hw. now rewrite str_append_assoc.
Qed.

Lemma split_join (ws : list string) :
  Forall (fun w => w <> "" /\
                   forallb (fun c => negb (py_isspace c)) (list_ascii_of_string w) = true) ws ->
  py_split (py_join " " ws) = ws.
Proof.
  unfold py_split. induction 1 as [|w ws [Hne Hw] Hall IH]; [reflexivity|].
  destruct ws as [|w2 ws].
  - cbn [py_join]. rewrite <- (str_append_nil w) at 1. rewrite split_go_app_word by exact Hw.
    simpl. destruct (String.eqb w "") eqn:E; [apply String.eqb_eq in E; contradiction|].
    reflexivity.
  - cbn [py_join]. rewrite split_go_app_word by exact Hw. simpl.
    destruct (String.eqb w "") eqn:E; [apply String.eqb_eq in E; contradiction|].
    f_equal. exact IH.
Qed.

Lemma list_ascii_app (a b : string) :
  list_ascii_of_string (a ++ b) = (list_ascii_of_string a ++ list_ascii_of_string b)%list.
Proof. induction a as [|c a IH]; simpl; [reflexivity | now rewrite IH]. Qed.

Lemma split_go_words (s : string) :
  forall acc,
  forallb (fun c => negb (py_isspace c)) (list_ascii_of_string acc) = true ->
  Forall (fun w => w <> "" /\
                   forallb (fun c => negb (py_isspace c)) (list_ascii_of_string w) = true)
         (split_go acc s).
Proof.
  induction s as [|c s IH]; intros acc Hacc; simpl.
  - destruct (String.eqb acc "") eqn:E; [constructor|].
    apply String.eqb_neq in E. repeat constructor; auto.
  - destruct (py_isspace c) eqn:Ec.
    + destruct (String.eqb acc "") eqn:E; [apply IH; reflexivity|].
      apply String.eqb_neq in E. constructor; [auto | apply IH; reflexivity].
    + apply IH. rewrite list_ascii_app, forallb_app, Hacc. simpl. now rewrite Ec.
Qed.

Lemma split_join_split (s : string) : py_split (py_join " " (py_split s)) = py_split s.
Proof. apply split_join, split_go_words. reflexivity. Qed.

(** Extra: a page dict built by [extract_page_data] has a title without
    leading or trailing whitespace, a [text_content] already in normal form
    (its words joined by single spaces, so re-normalising it changes
    nothing), and a [word_count] equal to the number of words of
    [text_content], the empty text included. *)
Theorem extract_page_text_fields (sp : soup) (url : string) (now : Q) (d : dict) :
  extract_page_data sp url now = Some d ->
  exists title tc,
    dict_get d "title" = Some (JStr title) /\ py_strip title = title /\
    dict_get d "text_content" = Some (JStr tc) /\ py_join " " (py_split tc) = tc /\
    dict_get d "word_count" = Some (JNum (inject_Z (Z.of_nat (List.length (py_split tc))))).
Proof.
  unfold extract_page_data. destruct (sp_raises sp); [discriminate|].
  intros H. injection H as <-.
  set (title := match sp_first_heading sp with
                | Some t => py_strip t
                | None => match sp_title_tag sp with
                          | Some t => py_strip t | None => "Unknown Title" end
                end).
  set (tc := match sp_content_text sp with
             | Some t => py_join " " (py_split (py_strip t)) | None => "" end).
  exists title, tc. split; [reflexivity|]. split.
  { unfold title. destruct (sp_first_heading sp); [apply strip_idem|].
    destruct (sp_title_tag sp); [apply strip_idem | reflexivity]. }
  split; [reflexivity|]. split.
  { unfold tc. destruct (sp_content_text sp); [|reflexivity].
    rewrite split_join_split. reflexivity. }
  cbn [dict_get String.eqb]. simpl.
  destruct (String.eqb tc "") eqn:E; [|reflexivity].
  apply String.eqb_eq in E. rewrite E. reflexivity.
Qed.

Lemma extract_page_text_fields_witness :
  exists title tc,
    dict_get [("title", JStr "Docker"); ("url", JStr "u"); ("text_content", JStr "a b");
              ("categories", JArr []); ("internal_links", JArr []); ("last_modified", JNull);
              ("scraped_at", JNum 0); ("word_count", JNum 2)] "title" = Some (JStr title)
    /\ py_strip title = title /\
    dict_get [("title", JStr "Docker"); ("url", JStr "u"); ("text_content", JStr "a b");
              ("categories", JArr []); ("internal_links", JArr []); ("last_modified", JNull);
              ("scraped_at", JNum 0); ("word_count", JNum 2)] "text_content" = Some (JStr tc)
    /\ py_join " " (py_split tc) = tc /\
    dict_get [("title", JStr "Docker"); ("url", JStr "u"); ("text_content", JStr "a b");
              ("categories", JArr []); ("internal_links", JArr []); ("last_modified", JNull);
              ("scraped_at", JNum 0); ("word_count", JNum 2)] "word_count"
    = Some (JNum (inject_Z (Z.of_nat (List.length (py_split tc))))).
Proof.
  apply (extract_page_text_fields
           (mkSoup (Some "  Docker ") None (Some " a   b ") [] [] None false) "u" 0).
  reflexivity.
Defined.

Lemma add_categories_spec (links : list string) :
  forall acc, NoDup acc ->
  NoDup (add_categories acc links) /\
  forall c, In c (add_categories acc links) ->
            In c acc \/ (c <> "" /\ exists l, In l links /\ py_strip l = c).
Proof.
  induction links as [|l links IH]; intros acc Hacc; simpl.
  - split; [exact Hacc | now left].
  - destruct (negb (String.eqb (py_strip l) "")
              && negb (existsb (String.eqb (py_strip l)) acc)) eqn:E.
    + apply andb_true_iff in E as [E1 E2]. apply negb_true_iff in E1, E2.
      apply String.eqb_neq in E1.
      assert (Hn : ~ In (py_strip l) acc).
      { intros Hin. assert (existsb (String.eqb (py_strip l)) acc = true) as X.
        { apply existsb_exists. exists (py_strip l). split; [exact Hin | apply String.eqb_refl]. }
        congruence. }
      destruct (IH _ (NoDup_snoc _ _ Hacc Hn)) as [Hd Hi]. split; [exact Hd|].
      intros c Hc. destruct (Hi c Hc) as [Hc' | [Hne [l' [Hl' Hs]]]].
      * apply in_app_iff in Hc' as [Hc' | [<- | []]]; [now left|].
        right. split; [exact E1|]. exists l. split; [now left | reflexivity].
      * right. split; [exact Hne|]. exists l'. split; [now right | exact Hs].
    + destruct (IH _ Hacc) as [Hd Hi]. split; [exact Hd|].
      intros c Hc. destruct (Hi c Hc) as [Hc' | [Hne [l' [Hl' Hs]]]]; [now left|].
      right. split; [exact Hne|]. exists l'. split; [now right | exact Hs].
Qed.

(** Extra: the [categories] of a page dict built by [extract_page_data]
    are pairwise distinct, non-empty and free of surrounding whitespace,
    and each is the stripped text of one of the page's category links. *)
Theorem extract_page_categories (sp : soup) (url : string) (now : Q) (d : dict) :
  extract_page_data sp url now = Some d ->
  exists cats,
    dict_get d "categories" = Some (JArr (map JStr cats)) /\ NoDup cats /\
    Forall (fun c => c <> "" /\ py_strip c = c /\
                     exists l, In l (sp_category_links sp) /\ py_strip l = c) cats.
Proof.
  unfold extract_page_data. destruct (sp_raises sp); [discriminate|].
  intros H. injection H as <-.
  exists (add_categories [] (sp_category_links sp)). split; [reflexivity|].
  destruct (add_categories_spec (sp_category_links sp) [] (NoDup_nil _)) as [Hd Hi].
  split; [exact Hd|]. apply Forall_forall. intros c Hc.
  destruct (Hi c Hc) as [[] | [Hne [l [Hl Hs]]]].
  split; [exact Hne|]. split; [rewrite <- Hs; apply strip_idem|]. exists l. now split.
Qed.

Lemma extract_page_categories_witness :
  exists cats,
    dict_get [("title", JStr "T"); ("url", JStr "u"); ("text_content", JStr "");
              ("categories", JArr [JStr "DevOps"; JStr "Linux"]); ("internal_links", JArr []);
              ("last_modified", JNull); ("scraped_at", JNum 0); ("word_count", JNum 0)]
      "categories" = Some (JArr (map JStr cats)) /\ NoDup cats /\
    Forall (fun c => c <> "" /\ py_strip c = c /\
                     exists l, In l [" DevOps"; "Linux"; "DevOps "; "  "] /\ py_strip l = c) cats.
Proof.
  apply (extract_page_categories
           (mkSoup (Some "T") None None [" DevOps"; "Linux"; "DevOps "; "  "] [] None false) "u" 0).
  reflexivity.
Defined.

Lemma add_links_spec (links : list (string * string)) :
  forall acc, NoDup (map snd acc) ->
  NoDup (map snd (add_links acc links)) /\
  forall p, In p (add_links acc links) ->
    In p acc \/
    (fst p <> "" /\ exists href text, In (href, text) links /\
       startswith "/" href = true /\ startswith "//" href = false /\
       p = (py_strip text, urljoin_base href)).
Proof.
  induction links as [|[href text] links IH]; intros acc Hacc; cbn [add_links].
  - split; [exact Hacc | now left].
  - assert (Hstep : forall acc', NoDup (map snd acc') ->
                    (forall p, In p acc' -> In p acc \/
                       (fst p <> "" /\ exists href' text', (href' = href /\ text' = text) /\
                          startswith "/" href' = true /\ startswith "//" href' = false /\
                          p = (py_strip text', urljoin_base href'))) ->
                    NoDup (map snd (add_links acc' links)) /\
                    forall p, In p (add_links acc' links) ->
                      In p acc \/
                      (fst p <> "" /\ exists href' text', ((href', text') = (href, text)
                                                          \/ In (href', text') links) /\
                         startswith "/" href' = true /\ startswith "//" href' = false /\
                         p = (py_strip text', urljoin_base href'))).
    { intros acc' Hd' Hi'. destruct (IH acc' Hd') as [Hd Hi]. split; [exact Hd|].
      intros p Hp. destruct (Hi p Hp) as [Hp' | [Hne [h [t [Hin [H1 [H2 ->]]]]]]].
      - destruct (Hi' p Hp') as [Hp'' | [Hne [h [t [[-> ->] [H1 [H2 ->]]]]]]]; [now left|].
        right. split; [exact Hne|]. exists href, text. split; [now left|]. auto.
      - right. split; [exact Hne|]. exists h, t. split; [now right|]. auto. }
    destruct (startswith "/" href && negb (startswith "//" href)) eqn:Eh.
    + apply andb_true_iff in Eh as [Eh1 Eh2]. apply negb_true_iff in Eh2.
      destruct (negb (String.eqb (py_strip text) "")
                && negb (existsb (String.eqb (urljoin_base href)) (map snd acc))) eqn:E.
      * apply andb_true_iff in E as [E1 E2]. apply negb_true_iff in E1, E2.
        apply String.eqb_neq in E1.
        assert (Hn : ~ In (urljoin_base href) (map snd acc)).
        { intros Hin. assert (existsb (String.eqb (urljoin_base href)) (map snd acc) = true) as X.
          { apply existsb_exists. exists (urljoin_base href).
            split; [exact Hin | apply String.eqb_refl]. }
          congruence. }
        destruct (Hstep (app acc [(py_strip text, urljoin_base href)])) as [Hd Hi].
        { rewrite map_app. apply NoDup_snoc; assumption. }
        { intros p Hp. apply in_app_iff in Hp as [Hp | [<- | []]]; [now left|].
          right. split; [exact E1|]. exists href, text. auto. }
        split; [exact Hd|]. intros p Hp. destruct (Hi p Hp) as [Hp' | [Hne [h [t [Hor R]]]]];
          [now left|]. right. split; [exact Hne|]. exists h, t. split; [|exact R].
        destruct Hor as [Heq | Hin]; [injection Heq as -> ->; now left | now right].
      * destruct (Hstep acc Hacc) as [Hd Hi]; [intros p Hp; now left|].
        split; [exact Hd|]. intros p Hp. destruct (Hi p Hp) as [Hp' | [Hne [h [t [Hor R]]]]];
          [now left|]. right. split; [exact Hne|]. exists h, t. split; [|exact R].
        destruct Hor as [Heq | Hin]; [injection Heq as -> ->; now left | now right].
    + destruct (Hstep acc Hacc) as [Hd Hi]; [intros p Hp; now left|].
      split; [exact Hd|]. intros p Hp. destruct (Hi p Hp) as [Hp' | [Hne [h [t [Hor R]]]]];
        [now left|]. right. split; [exact Hne|]. exists h, t. split; [|exact R].
      destruct Hor as [Heq | Hin]; [injection Heq as -> ->; now left | now right].
Qed.

Lemma NoDup_firstn {A : Type} (n : nat) (l : list A) : NoDup l -> NoDup (firstn n l).
Proof.
  revert l. induction n as [|n IH]; intros [|x l] H; simpl; [constructor..|].
  inversion H as [|? ? Hx Hl]; subst. constructor; [|exact (IH _ Hl)].
  intros Hin. apply Hx, (in_firstn n), Hin.
Qed.

(** Extra: the [internal_links] of a page dict built by
    [extract_page_data] are at most ten, with pairwise distinct URLs; each
    has a non-empty stripped text and the URL [urljoin_base href] of a link
    of the page whose [href] starts with one slash and not two. *)
Theorem extract_page_links (sp : soup) (url : string) (now : Q) (d : dict) :
  extract_page_data sp url now = Some d ->
  exists links,
    dict_get d "internal_links"
      = Some (JArr (map (fun '(t, u) => JObj [("text", JStr t); ("url", JStr u)]) links))
    /\ (List.length links <= 10)%nat /\ NoDup (map snd links)
    /\ Forall (fun p => fst p <> "" /\ py_strip (fst p) = fst p /\
                        exists href text, In (href, text) (sp_links sp) /\
                          startswith "/" href = true /\ startswith "//" href = false /\
                          p = (py_strip text, urljoin_base href)) links.
Proof.
  unfold extract_page_data. destruct (sp_raises sp); [discriminate|].
  intros H. injection H as <-.
  exists (firstn 10 (add_links [] (sp_links sp))). split; [reflexivity|].
  split; [rewrite length_firstn; lia|].
  destruct (add_links_spec (sp_links sp) [] (NoDup_nil _)) as [Hd Hi].
  split; [rewrite <- firstn_map; apply NoDup_firstn, Hd|].
  apply Forall_forall. intros p Hp. apply in_firstn in Hp.
  destruct (Hi p Hp) as [[] | [Hne [h [t [Hin [H1 [H2 Hp']]]]]]].
  split; [exact Hne|]. split.
  - rewrite Hp'. cbn [fst]. apply strip_idem.
  - exists h, t. auto.
Qed.

Lemma extract_page_links_witness :
  exists links,
    dict_get [("title", JStr "T"); ("url", JStr "u"); ("text_content", JStr "");
              ("categories", JArr []);
              ("internal_links", JArr [JObj [("text", JStr "Docker");
                                             ("url", JStr "https://wiki.fosscell.org/Docker")]]);
              ("last_modified", JNull); ("scraped_at", JNum 0); ("word_count", JNum 0)]
      "internal_links"
      = Some (JArr (map (fun '(t, u) => JObj [("text", JStr t); ("url", JStr u)]) links))
    /\ (List.length links <= 10)%nat /\ NoDup (map snd links)
    /\ Forall (fun p => fst p <> "" /\ py_strip (fst p) = fst p /\
                        exists href text,
                          In (href, text) [("/Docker", " Docker "); ("//cdn", "x");
                                           ("/wiki/./../Docker", "again"); ("/Empty", " ")] /\
                          startswith "/" href = true /\ startswith "//" href = false /\
                          p = (py_strip text, urljoin_base href)) links.
Proof.
  apply (extract_page_links
           (mkSoup (Some "T") None None []
                   [("/Docker", " Docker "); ("//cdn", "x"); ("/wiki/./../Docker", "again");
                    ("/Empty", " ")]
                   None false) "u" 0).
  reflexivity.
Defined.

(* ------------------------------------------------------------------ *)
(** ** Further properties of the crawl loop *)

Lemma get_random_page_data (now : Q) (st : scraper) (o : fetch_outcome) :
  scraped_data (fst (get_random_page now st o)) = scraped_data st.
Proof.
  unfold get_random_page. destruct o as [|status u body]; [reflexivity|].
  destruct (negb _); [reflexivity|]. destruct (set_mem _ _); [reflexivity|].
  destruct body; reflexivity.
Qed.

Lemma run_batch_growth (now : Q) (os : list fetch_outcome) :
  forall st results tr st' res' tr',
  run_batch now st os results tr = (st', res', tr') ->
  scraped_data st' = scraped_data st /\
  (exists extra, res' = (results ++ extra)%list /\ (List.length extra <= List.length os)%nat) /\
  (forall e, In e tr' -> In e tr \/ e = EFetch).
Proof.
  induction os as [|o os IH]; intros st results tr st' res' tr' H; cbn [run_batch] in H.
  - injection H as <- <- <-. split; [reflexivity|]. split; [|auto].
    exists []. rewrite app_nil_r. split; [reflexivity | simpl; lia].
  - pose proof (get_random_page_data now st o) as Hd.
    destruct (get_random_page now st o) as [st1 r] eqn:Eg. cbn [fst] in Hd.
    destruct (IH _ _ _ _ _ _ H) as [Hd' [[extra [He Hl]] Ht]].
    split; [congruence|]. split.
    + destruct r as [p|].
      * exists (p :: extra). rewrite He, <- app_assoc. split; [reflexivity | simpl; lia].
      * exists extra. split; [exact He | simpl; lia].
    + intros e Hin. destruct (Ht e Hin) as [H1 | H1]; [|now right].
      apply in_app_iff in H1 as [H1 | [H1 | []]]; [now left | now right].
Qed.

Lemma merge_batch_growth (now : Q) (st : scraper) (draw : nat -> fetch_outcome) (n : nat)
    (tr : list event) (st' : scraper) (tr' : list event) :
  merge_batch now st draw n tr = (st', tr') ->
  (exists extra, scraped_data st' = (scraped_data st ++ extra)%list
                 /\ (List.length extra <= n)%nat) /\
  (forall d u, In (ECheckpoint d u) tr' ->
               In (ECheckpoint d u) tr \/ (List.length d mod 10 = 0)%nat).
Proof.
  unfold merge_batch.
  destruct (run_batch now st (map draw (seq 0 n)) [] tr) as [[st1 res] tr1] eqn:E.
  destruct (run_batch_growth _ _ _ _ _ _ _ _ E) as [Hd [[extra [He Hl]] Ht]].
  rewrite length_map, length_seq in Hl. cbn [app] in He. subst res.
  intros H. injection H as <- <-. cbn [scraped_data].
  split; [exists extra; rewrite Hd; split; [reflexivity | exact Hl]|].
  intros d u Hin. destruct (Nat.eqb _ 0) eqn:Ec.
  - apply in_app_iff in Hin as [Hin | [Heq | []]].
    + destruct (Ht _ Hin) as [H1 | H1]; [now left | discriminate].
    + unfold save_checkpoint in Heq. cbn [scraped_data scraped_pages] in Heq.
      injection Heq as <- <-. right. apply Nat.eqb_eq in Ec. exact Ec.
  - destruct (Ht _ Hin) as [H1 | H1]; [now left | discriminate].
Qed.

Lemma crawl_loop_growth (now : Q) (target : Z) (mc : nat) (iter : nat -> iter_event)
    (fuel : nat) :
  forall i st tr,
  match crawl_loop fuel now target mc iter i st tr with
  | LDone st' tr' | LRaised _ st' tr' | LFuel st' tr' =>
      (exists extra, scraped_data st' = (scraped_data st ++ extra)%list) /\
      ((Z.of_nat (List.length (scraped_data st)) <= target)%Z ->
       (Z.of_nat (List.length (scraped_data st')) <= target)%Z) /\
      (forall d u, In (ECheckpoint d u) tr' ->
                   In (ECheckpoint d u) tr \/ (List.length d mod 10 = 0)%nat)
  end.
Proof.
  induction fuel as [|fuel IH]; intros i st tr; cbn [crawl_loop].
  - destruct (negb _); (split; [exists []; now rewrite app_nil_r | split; auto]).
  - destruct (negb _) eqn:Eb; [split; [exists []; now rewrite app_nil_r | split; auto]|].
    apply negb_false_iff, Z.ltb_lt in Eb.
    assert (Hstep : forall draw st' tr',
              merge_batch now st draw
                (Nat.min mc (Z.to_nat (target - Z.of_nat (List.length (scraped_data st)))))
                tr = (st', tr') ->
              (exists extra, scraped_data st' = (scraped_data st ++ extra)%list) /\
              (Z.of_nat (List.length (scraped_data st')) <= target)%Z /\
              (forall d u, In (ECheckpoint d u) tr' ->
                           In (ECheckpoint d u) tr \/ (List.length d mod 10 = 0)%nat)).
    { intros draw st' tr' Em.
      destruct (merge_batch_growth _ _ _ _ _ _ _ Em) as [[extra [He Hl]] Hc].
      split; [eauto|]. split; [|exact Hc].
      rewrite He, length_app. lia. }
    destruct (iter i) as [draw | draw k e | draw e].
    + destruct (merge_batch _ _ _ _ _) as [st' tr'] eqn:Em.
      destruct (Hstep _ _ _ Em) as [[extra He] [Hb Hc]].
      specialize (IH (S i) st' tr').
      destruct (crawl_loop fuel now target mc iter (S i) st' tr') as [s t | e s t | s t];
        destruct IH as [[extra' He'] [Hb' Hc']];
        (split; [exists (extra ++ extra')%list; rewrite He', He, app_assoc; reflexivity|]);
        (split; [intros _; exact (Hb' Hb)|]);
        intros d u Hin; (destruct (Hc' d u Hin) as [H1 | H1]; [exact (Hc d u H1) | now right]).
    + destruct (run_batch _ _ _ _ _) as [[st' res] tr'] eqn:E.
      destruct (run_batch_growth _ _ _ _ _ _ _ _ E) as [Hd [_ Ht]].
      rewrite Hd. split; [exists []; now rewrite app_nil_r|]. split; [auto|].
      intros d u Hin. destruct (Ht _ Hin) as [H | H]; [now left | discriminate].
    + destruct (merge_batch _ _ _ _ _) as [st' tr'] eqn:Em.
      destruct (Hstep _ _ _ Em) as [He [Hb Hc]]. split; [exact He | split; [intros _; exact Hb | exact Hc]].
Qed.

(** Extra: [scrape_pages] never drops a page: the pages loaded from the
    checkpoint are a prefix of the pages it holds when it returns, raises
    or is still running; and when it starts at or below the target it never
    holds more pages than the target. *)
Theorem scrape_pages_growth (fuel : nat) (now : Q) (mc : nat) (iter : nat -> iter_event)
    (ck : option ckpt_file) (st0 : scraper) (target : Z) :
  match scrape_pages fuel now mc iter ck st0 target with
  | SPReturned _ st _ | SPRaised _ st _ | SPRunning st _ =>
      (exists extra,
         scraped_data st = (scraped_data (load_checkpoint ck st0) ++ extra)%list) /\
      ((Z.of_nat (List.length (scraped_data (load_checkpoint ck st0))) <= target)%Z ->
       (Z.of_nat (List.length (scraped_data st)) <= target)%Z)
  end.
Proof.
  unfold scrape_pages.
  destruct (_ <=? 0)%Z; [split; [exists []; now rewrite app_nil_r | auto]|].
  pose proof (crawl_loop_growth now target mc iter fuel 0 (load_checkpoint ck st0) []) as H.
  destruct (crawl_loop fuel now target mc iter 0 (load_checkpoint ck st0) [])
    as [s t | [|] s t | s t]; destruct H as [He [Hb _]]; auto.
Qed.

(* ------------------------------------------------------------------ *)
(** ** Further properties of removeTitles.py *)

Lemma keep_pages_str_titles (s : string) (pages kept : list json) :
  keep_pages s pages = Some kept -> Forall has_str_title pages.
Proof.
  revert kept. induction pages as [|p ps IH]; intros kept H; [constructor|].
  destruct p as [| | | | |d]; try discriminate. cbn [keep_pages] in H.
  destruct (dict_get d "title") as [[| | |t| |]|] eqn:Et; try discriminate.
  destruct (keep_pages s ps) as [r|] eqn:Er; [|discriminate].
  constructor; [exists d, t; split; [reflexivity | exact Et] | exact (IH r eq_refl)].
Qed.

Lemma filter_idem {A : Type} (f : A -> bool) (l : list A) : filter f (filter f l) = filter f l.
Proof.
  induction l as [|x l IH]; simpl; [reflexivity|].
  destruct (f x) eqn:E; simpl; [rewrite E, IH | rewrite IH]; reflexivity.
Qed.

(** Extra: running [removeTitles] a second time with the same text on the
    file it wrote leaves the file unchanged. *)
Theorem remove_titles_idempotent (data : dict) (s : string) (out : dict) :
  remove_titles data s = Some (JObj out) -> remove_titles out s = Some (JObj out).
Proof.
  unfold remove_titles.
  destruct (dict_get data "pages") as [[| | | |pages|]|]; try discriminate.
  destruct (keep_pages s pages) as [kept|] eqn:Ek; [|discriminate].
  intros H. injection H as <-.
  change (dict_get [("pages", JArr kept)] "pages") with (Some (JArr kept)). cbv beta iota.
  pose proof (keep_pages_str_titles _ _ _ Ek) as Ht.
  rewrite (keep_pages_filter _ _ Ht) in Ek. injection Ek as <-.
  rewrite keep_pages_filter.
  - rewrite filter_idem. reflexivity.
  - apply Forall_forall. intros p Hp. apply filter_In in Hp as [Hp _].
    exact (proj1 (Forall_forall _ _) Ht p Hp).
Qed.

Lemma remove_titles_idempotent_witness :
  remove_titles [("pages", JArr [JObj [("title", JStr "Docker")]])] "Old"
  = Some (JObj [("pages", JArr [JObj [("title", JStr "Docker")]])]).
Proof.
  apply (remove_titles_idempotent
           [("pages", JArr [JObj [("title", JStr "Docker")]; JObj [("title", JStr "Old page")]])]).
  reflexivity.
Defined.

(** Extra: [removeTitles] with an empty input text removes every page,
    since the empty string occurs in every title. *)
Theorem remove_titles_empty_input (data : dict) (pages : list json) :
  dict_get data "pages" = Some (JArr pages) -> Forall has_str_title pages ->
  remove_titles data "" = Some (JObj [("pages", JArr [])]).
Proof.
  intros Hp Ht. unfold remove_titles. rewrite Hp, (keep_pages_filter _ _ Ht).
  rewrite filter_all_false; [reflexivity|].
  intros p Hin. destruct (proj1 (Forall_forall _ _) Ht p Hin) as [d [t [-> Et]]].
  unfold title_contains. rewrite Et. destruct t; reflexivity.
Qed.

Lemma remove_titles_empty_input_witness :
  remove_titles [("pages", JArr [JObj [("title", JStr "Docker")]; JObj [("title", JStr "")]])] ""
  = Some (JObj [("pages", JArr [])]).
Proof.
  apply (remove_titles_empty_input _ [JObj [("title", JStr "Docker")]; JObj [("title", JStr "")]]).
  - reflexivity.
  - repeat constructor; [exists [("title", JStr "Docker")], "Docker" | exists [("title", JStr "")], ""];
      split; reflexivity.
Defined.
